(** * Natural-gas price estimation and storage-contract valuation

    A shallow embedding of
    - [Quantitative Research/Task 1/gas_price_analysis.py]
      ([load_data], [estimate_price], [extrapolate_future_prices]) and
    - [Quantitative Research/Task 2/price_storage_contract.py]
      ([price_storage_contract] and its example scenario),
    followed by the properties established about them. *)

From Stdlib Require Import ZArith QArith Lia Lqa Floats Uint63 Sorting.Sorted.
From stdpp Require Import base option list sorting gmap strings.

Local Open Scope Z_scope.

(** ** Calendar dates

    [pd.to_datetime] on ISO date strings is modelled by its result: a
    calendar date (year, month, day).  The arithmetic below follows
    CPython's [datetime] module ([_is_leap], [_days_in_month],
    [_days_before_year], [_days_before_month], [_ymd2ord]), which
    [Timestamp.toordinal] inherits, and the month-end rules of pandas'
    [MonthEnd] offset ([freq='M']) and [DateOffset(months=1)]. *)
Module Calendar.

Record date := mkdate { year : Z; month : Z; day : Z }.

#[global] Instance date_eq_dec : EqDecision date.
Proof. solve_decision. Defined.

Definition is_leap (y : Z) : bool :=
  (y mod 4 =? 0) && (negb (y mod 100 =? 0) || (y mod 400 =? 0)).

Definition days_in_month (y m : Z) : Z :=
  if (m =? 2) && is_leap y then 29
  else match m with
       | 1 => 31 | 2 => 28 | 3 => 31 | 4 => 30 | 5 => 31 | 6 => 30
       | 7 => 31 | 8 => 31 | 9 => 30 | 10 => 31 | 11 => 30 | 12 => 31
       | _ => -1
       end.

Definition days_before_year (y : Z) : Z :=
  let y' := y - 1 in y' * 365 + y' / 4 - y' / 100 + y' / 400.

Definition days_before_month (y m : Z) : Z :=
  match m with
  | 1 => 0 | 2 => 31 | 3 => 59 | 4 => 90 | 5 => 120 | 6 => 151
  | 7 => 181 | 8 => 212 | 9 => 243 | 10 => 273 | 11 => 304 | 12 => 334
  | _ => -1
  end + (if (2 <? m) && is_leap y then 1 else 0).

(** [d.toordinal()]: day count, 0001-01-01 being day 1. *)
Definition toordinal (d : date) : Z :=
  days_before_year (year d) + days_before_month (year d) (month d) + day d.

(** What the constructors of [datetime] accept. *)
Definition valid_date (d : date) : Prop :=
  1 <= year d /\ 1 <= month d <= 12 /\
  1 <= day d <= days_in_month (year d) (month d).

(** Chronological comparison ([<], [<=] on timestamps): for dates it is
    the lexicographic comparison of (year, month, day). *)
Definition date_compare (a b : date) : comparison :=
  match year a ?= year b with
  | Eq => match month a ?= month b with
          | Eq => day a ?= day b
          | c => c
          end
  | c => c
  end.

Definition date_ltb (a b : date) : bool :=
  match date_compare a b with Lt => true | _ => false end.

Definition date_leb (a b : date) : bool :=
  match date_compare a b with Gt => false | _ => true end.

Definition date_lt (a b : date) : Prop := date_ltb a b = true.
Definition date_le (a b : date) : Prop := date_leb a b = true.

#[global] Instance date_le_dec : RelDecision date_le.
Proof. intros a b. unfold date_le. apply _. Defined.

#[global] Instance date_lt_dec : RelDecision date_lt.
Proof. intros a b. unfold date_lt. apply _. Defined.

(** [Series.min()] / [Series.max()] on a datetime column; [None] is
    pandas' [NaT], the answer on an empty column. *)
Definition date_min2 (a b : date) : date := if date_leb a b then a else b.
Definition date_max2 (a b : date) : date := if date_leb a b then b else a.

Definition dates_min (l : list date) : option date :=
  match l with
  | [] => None
  | d :: r => Some (foldl date_min2 d r)
  end.

Definition dates_max (l : list date) : option date :=
  match l with
  | [] => None
  | d :: r => Some (foldl date_max2 d r)
  end.

(** *** Month-end frequency *)

Definition month_ok (d : date) : Prop := 1 <= month d <= 12.

Definition month_end (y m : Z) : date := mkdate y m (days_in_month y m).

(** [MonthEnd().is_on_offset(d)] *)
Definition is_month_end (d : date) : bool :=
  day d =? days_in_month (year d) (month d).

(** [MonthEnd().rollforward(d)]: [d] itself when it is a month end, else
    the end of its month. *)
Definition rollforward (d : date) : date :=
  if is_month_end d then d else month_end (year d) (month d).

(** [d + MonthEnd(1)] for [d] on a month end: the end of the next month. *)
Definition next_month_end (d : date) : date :=
  if month d =? 12 then month_end (year d + 1) 1
  else month_end (year d) (month d + 1).

(** [d + pd.DateOffset(months=1)]: same day of the next month, clipped
    to the length of that month. *)
Definition add_one_month (d : date) : date :=
  let y := if month d =? 12 then year d + 1 else year d in
  let m := if month d =? 12 then 1 else month d + 1 in
  mkdate y m (Z.min (day d) (days_in_month y m)).

(** [pd.date_range(start, periods=n, freq='M')]: [n] month ends, the
    first being [rollforward start]. *)
Fixpoint month_ends_from (cur : date) (n : nat) : list date :=
  match n with
  | O => []
  | S n' => cur :: month_ends_from (next_month_end cur) n'
  end.

Definition date_range_periods (start : date) (periods : nat) : list date :=
  month_ends_from (rollforward start) periods.

(** [pd.date_range(start=s, end=e, freq='M')]: the month ends from
    [rollforward s] on, as long as they do not pass [e].  The loop of
    pandas' [generate_range] is bounded here by the number of calendar
    months touched by the interval, which the loop cannot exceed. *)
Fixpoint month_ends_until (fuel : nat) (cur stop : date) : list date :=
  match fuel with
  | O => []
  | S f =>
      if date_leb cur stop
      then cur :: month_ends_until f (next_month_end cur) stop
      else []
  end.

Definition months_spanned (s e : date) : nat :=
  Z.to_nat (12 * (year e - year s) + (month e - month s) + 1).

Definition date_range (s e : date) : list date :=
  month_ends_until (months_spanned s e) (rollforward s) e.

End Calendar.

(** ** Exceptions

    Fallible steps return [Ok v] or [Raise e], [e] naming the Python
    exception that leaves the function. *)
Inductive exn := KeyError | IndexError | ValueError | TypeError.

Inductive result (A : Type) : Type :=
| Ok (a : A)
| Raise (e : exn).
Arguments Ok {A} a.
Arguments Raise {A} e.

Definition bind {A B} (r : result A) (k : A -> result B) : result B :=
  match r with
  | Ok a => k a
  | Raise e => Raise e
  end.

Definition result_map {A B} (f : A -> B) (r : result A) : result B :=
  match r with
  | Ok a => Ok (f a)
  | Raise e => Raise e
  end.

Definition or_raise {A} (e : exn) (o : option A) : result A :=
  match o with
  | Some a => Ok a
  | None => Raise e
  end.

Notation "x <~ r ;; k" := (bind r (fun x => k))
  (at level 100, r at next level, right associativity).

(** ** Numbers

    The contract valuer only adds, subtracts, multiplies and compares
    its numeric arguments, so it runs unchanged on whatever number type
    the caller passes.  [Num] is that interface; the instances are
    binary64 floats (Python's [float], what the docstring and the example
    use), and the exact integers and rationals (Python's [int] and
    [fractions.Fraction]). *)
Class Num (A : Type) := {
  zero : A;
  add : A -> A -> A;
  sub : A -> A -> A;
  mul : A -> A -> A;
  leb : A -> A -> bool;          (* Python's [a <= b]; [a >= b] is [leb b a] *)
  of_count : nat -> A            (* an integer count used in arithmetic *)
}.

#[global] Instance float_Num : Num float := {|
  zero := 0%float;
  add := PrimFloat.add;
  sub := PrimFloat.sub;
  mul := PrimFloat.mul;
  leb := PrimFloat.leb;
  of_count := fun n => PrimFloat.of_uint63 (Uint63.of_Z (Z.of_nat n))
|}.

#[global] Instance Z_Num : Num Z := {|
  zero := 0;
  add := Z.add;
  sub := Z.sub;
  mul := Z.mul;
  leb := Z.leb;
  of_count := Z.of_nat
|}.

#[global] Instance Q_Num : Num Q := {|
  zero := 0%Q;
  add := Qplus;
  sub := Qminus;
  mul := Qmult;
  leb := Qle_bool;
  of_count := fun n => inject_Z (Z.of_nat n)
|}.

(** Arithmetic without rounding: the order facts about [add] and [sub]
    that the volume bound rests on.  They hold in every ordered group;
    binary64 rounding breaks the second. *)
Class ExactNum (A : Type) `{Num A} : Prop := {
  leb_zero_zero : leb zero zero = true;
  leb_add_of_leb_sub : forall v m r : A,
    leb v (sub m r) = true -> leb (add v r) m = true;
  leb_zero_add : forall v r : A,
    leb zero v = true -> leb zero r = true -> leb zero (add v r) = true;
  leb_zero_sub : forall v w : A,
    leb w v = true -> leb zero (sub v w) = true;
  leb_sub_of_leb : forall v m w : A,
    leb v m = true -> leb zero w = true -> leb (sub v w) m = true
}.

(** ** The storage-contract valuer ([price_storage_contract.py]) *)
Module PriceStorageContract.
Import Calendar.

(** The two messages the function prints. *)
Inductive diagnostic :=
| Insufficient_storage_space (on : date)
| Insufficient_gas_stored (on : date).

Section Valuer.
Context {num : Type} `{Num num}.

(** The local variables of the function that the loop updates, and
    what it has printed so far. *)
Record state := mkstate {
  volume : num;
  total_purchase_cost : num;
  total_sales_revenue : num;
  total_injection_withdrawal_cost : num;
  total_transportation_cost : num;
  printed : list diagnostic
}.

Definition initial : state := mkstate zero zero zero zero zero [].

Definition positive (x : num) : Prop :=
  leb zero x = true /\ leb x zero = false.

(** [x] added [n] times to an accumulator that starts at zero, the way
    the loop builds up a per-event cost. *)
Definition accumulated (n : nat) (x : num) : num :=
  Nat.iter n (fun acc => add acc x) zero.

(** The bound the data model puts on the running volume. *)
Definition volume_in_bounds (max_storage : num) (s : state) : Prop :=
  leb zero (volume s) = true /\ leb (volume s) max_storage = true.

(** [list(dates).index(d)]: the position of the first occurrence. *)
Definition index (d : date) (dates : list date) : option nat :=
  fst <$> list_find (fun x => x = d) dates.

(** The arguments of [price_storage_contract]. *)
Variables (injection_dates withdrawal_dates : list date).
Variables (purchase_prices sale_prices : list num).
Variables (injection_rate withdrawal_rate max_storage : num).
Variables (storage_cost injection_withdrawal_cost transportation_cost : num).

(** [sorted(set(injection_dates) | set(withdrawal_dates))] *)
Definition all_dates : list date :=
  merge_sort date_le (remove_dups (injection_dates ++ withdrawal_dates)).

(** Lines 48-51: a committed injection at unit price [price]. *)
Definition after_injection (s : state) (price : num) : state :=
  mkstate
    (add (volume s) injection_rate)
    (add (total_purchase_cost s) (mul injection_rate price))
    (total_sales_revenue s)
    (add (total_injection_withdrawal_cost s) injection_withdrawal_cost)
    (add (total_transportation_cost s) transportation_cost)
    (printed s).

(** Lines 58-61: a committed withdrawal at unit price [price]. *)
Definition after_withdrawal (s : state) (price : num) : state :=
  mkstate
    (sub (volume s) withdrawal_rate)
    (total_purchase_cost s)
    (add (total_sales_revenue s) (mul withdrawal_rate price))
    (add (total_injection_withdrawal_cost s) injection_withdrawal_cost)
    (add (total_transportation_cost s) transportation_cost)
    (printed s).

(** Lines 53 and 63: a skipped event prints a message and changes
    nothing else. *)
Definition after_print (s : state) (message : diagnostic) : state :=
  mkstate (volume s) (total_purchase_cost s) (total_sales_revenue s)
    (total_injection_withdrawal_cost s) (total_transportation_cost s)
    (printed s ++ [message]).

(** Lines 45-53: the injection branch of one loop iteration. *)
Definition inject (current_date : date) (s : state) : result state :=
  if bool_decide (current_date ∈ injection_dates) then
    i <~ or_raise ValueError (index current_date injection_dates) ;;
    if leb (volume s) (sub max_storage injection_rate) then
      price <~ or_raise IndexError (purchase_prices !! i) ;;
      Ok (after_injection s price)
    else
      Ok (after_print s (Insufficient_storage_space current_date))
  else Ok s.

(** Lines 55-63: the withdrawal branch of one loop iteration. *)
Definition withdraw (current_date : date) (s : state) : result state :=
  if bool_decide (current_date ∈ withdrawal_dates) then
    i <~ or_raise ValueError (index current_date withdrawal_dates) ;;
    if leb withdrawal_rate (volume s) then
      price <~ or_raise IndexError (sale_prices !! i) ;;
      Ok (after_withdrawal s price)
    else
      Ok (after_print s (Insufficient_gas_stored current_date))
  else Ok s.

(** The per-event costs after [n] committed events, and the number [m]
    of messages printed so far. *)
Definition tally (n m : nat) (s : state) : Prop :=
  total_injection_withdrawal_cost s = accumulated n injection_withdrawal_cost /\
  total_transportation_cost s = accumulated n transportation_cost /\
  length (printed s) = m.

(** A message about a date that was visited and belongs to the schedule
    the message speaks of. *)
Definition message_about (dates : list date) (m : diagnostic) : Prop :=
  match m with
  | Insufficient_storage_space d => d ∈ dates /\ d ∈ injection_dates
  | Insufficient_gas_stored d => d ∈ dates /\ d ∈ withdrawal_dates
  end.

(** One iteration of the loop of line 42. *)
Definition visit (current_date : date) (s : state) : result state :=
  s' <~ inject current_date s ;; withdraw current_date s'.

(** The loop over the dates still to visit. *)
Fixpoint simulate (dates : list date) (s : state) : result state :=
  match dates with
  | [] => Ok s
  | d :: rest => s' <~ visit d s ;; simulate rest s'
  end.

(** Line 66.  On an empty schedule [min()] / [max()] is [NaT], and
    [pd.date_range] raises [ValueError] on a [NaT] bound. *)
Definition storage_duration : result nat :=
  start <~ or_raise ValueError (dates_min injection_dates) ;;
  stop <~ or_raise ValueError (dates_max withdrawal_dates) ;;
  Ok (length (date_range start stop)).

(** Line 67. *)
Definition total_storage_cost : result num :=
  n <~ storage_duration ;; Ok (mul storage_cost (of_count n)).

(** Lines 70-74. *)
Definition contract_value (s : state) (storage : num) : num :=
  sub (sub (sub (sub (total_sales_revenue s) (total_purchase_cost s))
                storage)
           (total_injection_withdrawal_cost s))
      (total_transportation_cost s).

(** The whole function: the state the loop ends in, and the value
    returned. *)
Definition run : result (state * num) :=
  s <~ simulate all_dates initial ;;
  storage <~ total_storage_cost ;;
  Ok (s, contract_value s storage).

Definition price_storage_contract : result num :=
  r <~ run ;; Ok (snd r).

End Valuer.

(** The module-level example (lines 79-94). *)
Module Example.
Definition injection_dates : list date :=
  [mkdate 2023 5 1; mkdate 2023 5 2; mkdate 2023 5 3].
Definition withdrawal_dates : list date :=
  [mkdate 2023 11 1; mkdate 2023 11 2; mkdate 2023 11 3].
#[local] Set Warnings "-inexact-float".
Definition purchase_prices : list float := [2.0; 2.1; 2.2]%float.
Definition sale_prices : list float := [3.0; 3.1; 3.2]%float.
Definition injection_rate : float := 1e6%float.
Definition withdrawal_rate : float := 1e6%float.
Definition max_storage : float := 3e6%float.
Definition storage_cost : float := 100000%float.
Definition injection_withdrawal_cost : float := 10000%float.
Definition transportation_cost : float := 50000%float.

Definition contract_value : result float :=
  price_storage_contract injection_dates withdrawal_dates
    purchase_prices sale_prices injection_rate withdrawal_rate
    max_storage storage_cost injection_withdrawal_cost
    transportation_cost.
End Example.

(** A schedule on which binary64 rounding matters: two injections, a
    withdrawal, a third injection, with
    [injection_rate = 0.9999999999999994], [withdrawal_rate =
    0.9999999999999984] and [max_storage = 1.9999999999999998]. *)
Module Rounding.
Definition injection_dates : list date :=
  [mkdate 2023 1 1; mkdate 2023 1 2; mkdate 2023 1 4].
Definition withdrawal_dates : list date := [mkdate 2023 1 3].
Definition purchase_prices : list float := [1; 1; 1]%float.
Definition sale_prices : list float := [1]%float.
Definition injection_rate : float := 0x1.ffffffffffffbp-1%float.
Definition withdrawal_rate : float := 0x1.ffffffffffff2p-1%float.
Definition max_storage : float := 0x1.fffffffffffffp+0%float.

Definition final_state : result state :=
  simulate injection_dates withdrawal_dates purchase_prices sale_prices
    injection_rate withdrawal_rate max_storage 0%float 0%float
    (all_dates injection_dates withdrawal_dates) initial.
End Rounding.

End PriceStorageContract.

(** ** The price model ([gas_price_analysis.py])

    Prices are binary64 floats.  [np.interp] is a short sequence of
    float operations, modelled one by one.  scikit-learn's
    [LinearRegression] hands its least-squares problem to LAPACK, whose
    rounding is not part of this repository: the coefficients it
    computes are a parameter, [lstsq], of the model, and only what
    scikit-learn does around the solver (input checks, prediction) is
    modelled.

    [Numeric] is the arithmetic the two functions run on.  Its instances
    are [binary64], for any solver, which is what the program runs on,
    and [exact], the rationals with the closed-form least-squares
    line, kept as a reference. *)
Module GasPriceAnalysis.
Import Calendar.

Class Numeric (A : Type) `{Num A} := {
  fdiv : A -> A -> A;
  feq : A -> A -> bool;             (* [a == b] *)
  isnan : A -> bool;
  isfinite : A -> bool;
  of_int : Z -> A;                  (* an [int64] entry converted to [float64] *)
  lstsq : list A -> list A -> A * A (* [(coef_, intercept_)] of a fit on one feature *)
}.

(** A pandas column, and a [DataFrame] as its row count and its named
    columns. *)
Inductive column (num : Type) :=
| Datetimes (l : list date)
| Floats (l : list num)
| Ints (l : list Z).
Arguments Datetimes {num} l.
Arguments Floats {num} l.
Arguments Ints {num} l.

Record DataFrame (num : Type) := mkframe {
  len : nat;
  columns : gmap string (column num)
}.
Arguments mkframe {num} len columns.
Arguments len {num} d.
Arguments columns {num} d.

(** [np.arange(a, a + n)] *)
Definition arange (a n : nat) : list Z := Z.of_nat <$> seq a n.

(** *** The search of [numpy.interp]

    [binary_search_with_guess] of numpy's [compiled_base.c]: [-1] when
    the key is below [arr[0]], [len arr] when it is above the last
    entry, else an index [j] with [arr[j] <= key < arr[j+1]], looked for
    by a linear scan in a short array and otherwise near [guess] first
    and then by bisection.  The sample points are day counts, which
    binary64 holds exactly, so they are compared as integers. *)
Fixpoint count_le (x : Z) (xp : list Z) : nat :=
  match xp with
  | [] => O
  | a :: r => if (a <=? x)%Z then S (count_le x r) else O
  end.

(** [for (i = i0; i < len && key >= arr[i]; i++); return i - 1;] *)
Definition linear_search (key : Z) (arr : list Z) (i0 : nat) : Z :=
  Z.of_nat (i0 + count_le key (drop i0 arr)) - 1.

(** [while (imin < imax)]: the interval halves at each turn, so
    [length arr] turns are enough. *)
Fixpoint bisect (fuel : nat) (key : Z) (arr : list Z) (imin imax : nat) : nat :=
  match fuel with
  | O => imin
  | S fuel' =>
      if (imin <? imax)%nat then
        let imid := (imin + (imax - imin) / 2)%nat in
        if (nth imid arr 0 <=? key)%Z
        then bisect fuel' key arr (S imid) imax
        else bisect fuel' key arr imin imid
      else imin
  end.

Definition LIKELY_IN_CACHE_SIZE : nat := 8.

Definition binary_search_with_guess (key : Z) (arr : list Z) (guess : nat) : Z :=
  let len := length arr in
  if (nth (len - 1) arr 0 <? key)%Z then Z.of_nat len
  else if (key <? nth 0 arr 0)%Z then -1
  else if (len <=? 4)%nat then linear_search key arr 1
  else
    let guess := if (len - 3 <? guess)%nat then (len - 3)%nat else guess in
    let guess := if (guess <? 1)%nat then 1%nat else guess in
    let finish imin imax := Z.of_nat (bisect len key arr imin imax) - 1 in
    if (key <? nth guess arr 0)%Z then
      if (key <? nth (guess - 1) arr 0)%Z then
        finish
          (if (LIKELY_IN_CACHE_SIZE <? guess)%nat
              && (nth (guess - LIKELY_IN_CACHE_SIZE) arr 0 <=? key)%Z
           then (guess - LIKELY_IN_CACHE_SIZE)%nat else O)
          (guess - 1)%nat
      else Z.of_nat (guess - 1)
    else if (key <? nth (guess + 1) arr 0)%Z then Z.of_nat guess
    else if (key <? nth (guess + 2) arr 0)%Z then Z.of_nat (guess + 1)
    else
      finish
        (guess + 2)%nat
        (if (guess <? len - LIKELY_IN_CACHE_SIZE - 1)%nat
            && (key <? nth (guess + LIKELY_IN_CACHE_SIZE) arr 0)%Z
         then (guess + LIKELY_IN_CACHE_SIZE)%nat else len).

(** For a scalar query the guess is the initial [j = 0]. *)
Definition search (x : Z) (xp : list Z) : Z := binary_search_with_guess x xp 0.

Section Model.
Context {num : Type} `{Numeric num}.

(** [data[name]] *)
Definition getitem (data : DataFrame num) (name : string) : result (column num) :=
  or_raise KeyError (columns data !! name).

(** [data[name] = c] *)
Definition setitem (data : DataFrame num) (name : string) (c : column num)
  : DataFrame num :=
  mkframe (len data) (<[name := c]> (columns data)).

Definition as_dates (c : column num) : result (list date) :=
  match c with
  | Datetimes l => Ok l
  | _ => Raise TypeError
  end.

(** [.values] handed to a numeric routine. *)
Definition as_floats (c : column num) : result (list num) :=
  match c with
  | Floats l => Ok l
  | Ints l => Ok (of_int <$> l)
  | Datetimes _ => Raise TypeError
  end.

(** *** [numpy.interp]

    The value on the segment from [(x0, y0)] to [(x1, y1)], as
    [arr_interp] computes it: [slope*(x - x0) + y0], each operation
    rounded on its own (no fused multiply-add); when that is NaN the
    same from the other end, and when that is NaN too and both ends
    hold the same value, that value. *)
Definition on_segment (x0 x1 x : Z) (y0 y1 : num) : num :=
  let slope := fdiv (sub y1 y0) (sub (of_int x1) (of_int x0)) in
  let res := add (mul slope (sub (of_int x) (of_int x0))) y0 in
  if isnan res then
    let res := add (mul slope (sub (of_int x) (of_int x1))) y1 in
    if isnan res && feq y0 y1 then y0 else res
  else res.

(** [np.interp(x, xp, fp)] for a scalar [x]: the value at the left or
    right end outside the sample points, the sample itself at a sample
    point, and the value on the segment between the two neighbours
    otherwise. *)
Definition np_interp (x : Z) (xp : list Z) (fp : list num) : result num :=
  if bool_decide (length xp = O) then Raise ValueError
  else if bool_decide (length xp <> length fp) then Raise ValueError
  else
    let n := Z.of_nat (length xp) in
    let j := search x xp in
    let k := Z.to_nat j in
    if (j =? -1)%Z then Ok (nth O fp zero)
    else if (j =? n)%Z then Ok (nth (length fp - 1) fp zero)
    else if (j =? n - 1)%Z then Ok (nth k fp zero)
    else if (nth k xp 0%Z =? x)%Z then Ok (nth k fp zero)
    else
      Ok (on_segment (nth k xp 0%Z) (nth (S k) xp 0%Z) x
            (nth k fp zero) (nth (S k) fp zero)).

(** *** [sklearn.linear_model.LinearRegression], one feature

    [fit] checks its input (at least one sample, as many targets as
    samples, no NaN and no infinity: a [ValueError] otherwise) and
    stores the coefficients the solver returns.  The samples are day
    counts or row indices converted to floats, which are finite; the
    check that can fail is the one on the targets.  [predict] checks
    that there is at least one sample and evaluates
    [X @ coef_ + intercept_]. *)
Record LinearRegression := mkmodel { coef_ : num; intercept_ : num }.

Definition fit (X y : list num) : result LinearRegression :=
  if bool_decide (length X = O) then Raise ValueError
  else if bool_decide (length X <> length y) then Raise ValueError
  else if negb (forallb isfinite y) then Raise ValueError
  else Ok (mkmodel (lstsq X y).1 (lstsq X y).2).

Definition decision_function (model : LinearRegression) (x : num) : num :=
  add (mul x (coef_ model)) (intercept_ model).

Definition predict (model : LinearRegression) (X : list num)
  : result (list num) :=
  if bool_decide (length X = O) then Raise ValueError
  else Ok (decision_function model <$> X).

(** *** [extrapolate_future_prices] (lines 41-73)

    Returns the new frame and, next to it, [data] as the call leaves
    it.  The figure of lines 62-71 is drawn from values already
    computed and changes neither of the two; matplotlib is not part of
    the model. *)
Definition extrapolate_future_prices (data : DataFrame num) (months : nat)
  : result (DataFrame num * DataFrame num) :=
  let data := setitem data "Time" (Ints (arange 0 (len data))) in
  X <~ bind (getitem data "Time") as_floats ;;
  y <~ bind (getitem data "Prices") as_floats ;;
  model <~ fit X y ;;
  let future_time := arange (len data) months in
  future_prices <~ predict model (of_int <$> future_time) ;;
  dates <~ bind (getitem data "Dates") as_dates ;;
  last_date <~ or_raise ValueError (dates_max dates) ;;
  let future_dates := date_range_periods (add_one_month last_date) months in
  Ok (mkframe months
        (<["Dates" := Datetimes future_dates]>
           (<["Prices" := Floats future_prices]> ∅)),
      data).

(** *** [estimate_price] (lines 75-102)

    Returns the estimate and [data] as the call leaves it.  A
    comparison with [NaT] (empty column) is false. *)
Definition in_range (dates : list date) (input_date : date) : bool :=
  match dates_min dates, dates_max dates with
  | Some lo, Some hi => date_leb lo input_date && date_leb input_date hi
  | _, _ => false
  end.

Definition estimate_price (data : DataFrame num) (input_date : date)
  : result (num * DataFrame num) :=
  dates <~ bind (getitem data "Dates") as_dates ;;
  let data := setitem data "Date_ordinal" (Ints (toordinal <$> dates)) in
  let input_date_ordinal := toordinal input_date in
  if in_range dates input_date then
    xp <~ getitem data "Date_ordinal" ;;
    fp <~ bind (getitem data "Prices") as_floats ;;
    match xp with
    | Ints xp =>
        p <~ np_interp input_date_ordinal xp fp ;; Ok (p, data)
    | _ => Raise TypeError
    end
  else
    X <~ bind (getitem data "Date_ordinal") as_floats ;;
    y <~ bind (getitem data "Prices") as_floats ;;
    model <~ fit X y ;;
    prediction <~ predict model [of_int input_date_ordinal] ;;
    Ok (nth O prediction zero, data).

(** A frame holding a price series: the two columns [load_data]
    produces, of equal length. *)
Definition series (dates : list date) (prices : list num) : DataFrame num :=
  mkframe (length dates)
    (<["Dates" := Datetimes dates]> (<["Prices" := Floats prices]> ∅)).

End Model.

(** *** [load_data] (lines 6-17)

    Reading the file is outside the model: [load_data] is given the rows
    [pd.read_csv] and [pd.to_datetime] produce, the (date, price) pairs of
    the [Dates] and [Prices] columns, and sorts them by date.  (On equal
    dates pandas' default sort leaves the order of the rows open; the
    merge sort here keeps them in input order.) *)
Definition row_le {num : Type} (r1 r2 : date * num) : Prop := date_le r1.1 r2.1.

#[global] Instance row_le_dec {num : Type} : RelDecision (@row_le num).
Proof. intros r1 r2. unfold row_le. apply _. Defined.

Definition load_data {num : Type} (rows : list (date * num)) : DataFrame num :=
  let sorted := merge_sort row_le rows in
  series (sorted.*1) (sorted.*2).

(** *** The arithmetic the program runs on: binary64 *)

(** An [int64] converted to [float64] (rounded to nearest). *)
Definition float_of_int (z : Z) : float :=
  if (z <? 0)%Z then PrimFloat.opp (PrimFloat.of_uint63 (Uint63.of_Z (- z)))
  else PrimFloat.of_uint63 (Uint63.of_Z z).

Definition binary64 (solver : list float -> list float -> float * float)
  : Numeric float := {|
  fdiv := PrimFloat.div;
  feq := PrimFloat.eqb;
  isnan := PrimFloat.is_nan;
  isfinite := PrimFloat.is_finite;
  of_int := float_of_int;
  lstsq := solver
|}.

(** The rational number a finite binary64 number stands for:
    [m * 2^e], with its sign. *)
Definition exact_value (f : float) : option Q :=
  match Prim2SF f with
  | S754_zero _ => Some 0%Q
  | S754_finite s m e =>
      let z := if s then Z.neg m else Z.pos m in
      Some match e with
           | Z.neg p => z # 2 ^ p
           | _ => inject_Z (z * 2 ^ e)
           end
  | _ => None
  end.

(** *** The reference arithmetic: exact rationals

    Here the least-squares problem has its closed form: both variables
    are centred, the slope is the quotient of the two centred sums (the
    minimum-norm solution, slope 0, when every [x] is the same: division
    by zero is 0 in [Q]) and the intercept follows from the means. *)
Definition Qsum (l : list Q) : Q := foldr Qplus 0%Q l.

Definition mean (l : list Q) : Q :=
  (Qsum l / inject_Z (Z.of_nat (length l)))%Q.

Definition least_squares_line (X y : list Q) : Q * Q :=
  let xm := mean X in
  let ym := mean y in
  let sxy := Qsum (zip_with (fun xi yi => (xi - xm) * (yi - ym))%Q X y) in
  let sxx := Qsum ((fun xi => (xi - xm) * (xi - xm))%Q <$> X) in
  let coef := (sxy / sxx)%Q in
  (coef, (ym - xm * coef)%Q).

#[global] Instance exact : Numeric Q := {|
  fdiv := Qdiv;
  feq := Qeq_bool;
  isnan := fun _ => false;
  isfinite := fun _ => true;
  of_int := inject_Z;
  lstsq := least_squares_line
|}.


(** A small series used to exercise the two functions, in exact
    rationals and in binary64. *)
Module Sample.
Definition dates : list date :=
  [mkdate 2023 1 31; mkdate 2023 2 28; mkdate 2023 3 31].
Definition prices : list Q := [10; 11; 13]%Q.
Definition data : DataFrame Q := series dates prices.
Definition float_prices : list float := [10; 11; 13]%float.
Definition float_data : DataFrame float := series dates float_prices.
End Sample.

(** Two observations thirty days apart whose prices are the smallest
    binary64 numbers: zero and 16 units of the last place of the
    subnormal range. *)
Module Tiny.
Definition dates : list date := [mkdate 2023 1 1; mkdate 2023 1 31].
Definition prices : list float := [0; 0x1p-1070]%float.
Definition data : DataFrame float := series dates prices.
End Tiny.

End GasPriceAnalysis.

(** * Properties *)

(** ** The calendar *)
Module CalendarFacts.
Import Calendar.

Lemma date_leb_iff a b :
  date_leb a b = true <->
  year a < year b \/
  (year a = year b /\
   (month a < month b \/ (month a = month b /\ day a <= day b))).
Proof.
  unfold date_leb, date_compare.
  destruct (Z.compare_spec (year a) (year b));
    destruct (Z.compare_spec (month a) (month b));
    destruct (Z.compare_spec (day a) (day b)); split; intros; (lia || done).
Qed.

Lemma date_ltb_iff a b :
  date_ltb a b = true <->
  year a < year b \/
  (year a = year b /\
   (month a < month b \/ (month a = month b /\ day a < day b))).
Proof.
  unfold date_ltb, date_compare.
  destruct (Z.compare_spec (year a) (year b));
    destruct (Z.compare_spec (month a) (month b));
    destruct (Z.compare_spec (day a) (day b)); split; intros; (lia || done).
Qed.

Lemma date_leb_false_iff a b : date_leb a b = false <-> date_ltb b a = true.
Proof.
  rewrite date_ltb_iff. split.
  - intros Hf. destruct (date_leb b a) eqn:Hba.
    + apply date_leb_iff in Hba.
      assert (~ date_leb a b = true) as Hn by (rewrite Hf; done).
      rewrite date_leb_iff in Hn. lia.
    + assert (~ date_leb a b = true) as Hn by (rewrite Hf; done).
      rewrite date_leb_iff in Hn. lia.
  - intros Hlt. destruct (date_leb a b) eqn:Hab; [|done].
    apply date_leb_iff in Hab. lia.
Qed.

Lemma date_eq_iff (a b : date) :
  a = b <-> year a = year b /\ month a = month b /\ day a = day b.
Proof.
  split; [intros ->; done|].
  destruct a, b; simpl; intros (-> & -> & ->); done.
Qed.

#[export] Instance date_le_refl : Reflexive date_le.
Proof. intros a. apply date_leb_iff. lia. Qed.

#[export] Instance date_le_trans : Transitive date_le.
Proof.
  intros a b c Hab Hbc. unfold date_le in *.
  rewrite date_leb_iff in *. lia.
Qed.

#[export] Instance date_le_total : Total date_le.
Proof.
  intros a b. unfold date_le. rewrite !date_leb_iff. lia.
Qed.

#[export] Instance date_le_antisym : AntiSymm eq date_le.
Proof.
  intros a b Hab Hba. unfold date_le in *.
  rewrite date_leb_iff in *. apply date_eq_iff. lia.
Qed.

Lemma date_lt_le_ne a b : date_lt a b <-> date_le a b /\ a <> b.
Proof.
  unfold date_lt, date_le. rewrite date_ltb_iff, date_leb_iff, date_eq_iff.
  lia.
Qed.

#[export] Instance date_lt_trans : Transitive date_lt.
Proof.
  intros a b c Hab Hbc. unfold date_lt in *.
  rewrite date_ltb_iff in *. lia.
Qed.

Lemma date_lt_irrefl a : ~ date_lt a a.
Proof. unfold date_lt. rewrite date_ltb_iff. lia. Qed.

(** [min()] and [max()] return an element of the column that bounds
    all the others. *)
Lemma foldl_min_spec l : forall d,
  (foldl date_min2 d l = d \/ foldl date_min2 d l ∈ l) /\
  date_le (foldl date_min2 d l) d /\
  (forall x, x ∈ l -> date_le (foldl date_min2 d l) x).
Proof.
  induction l as [|a l IH]; intros d; simpl.
  - split; [by left|]. split; [done|]. intros x Hx. by apply elem_of_nil in Hx.
  - destruct (IH (date_min2 d a)) as (Hin & Hle & Hall).
    assert (date_le (date_min2 d a) d /\ date_le (date_min2 d a) a
            /\ (date_min2 d a = d \/ date_min2 d a = a)) as (Hd & Ha & Hor).
    { unfold date_min2. destruct (date_leb d a) eqn:E.
      - split; [done|]. split; [exact E|by left].
      - split; [|split; [done|by right]].
        destruct (total date_le d a) as [Hda|Hda]; [|done].
        unfold date_le in Hda. congruence. }
    split; [|split].
    + destruct Hin as [->|Hin].
      * destruct Hor as [->| ->]; [by left|right; by left].
      * right. by right.
    + by etrans.
    + intros x Hx. apply elem_of_cons in Hx as [->|Hx]; [by etrans|by apply Hall].
Qed.

Lemma foldl_max_spec l : forall d,
  (foldl date_max2 d l = d \/ foldl date_max2 d l ∈ l) /\
  date_le d (foldl date_max2 d l) /\
  (forall x, x ∈ l -> date_le x (foldl date_max2 d l)).
Proof.
  induction l as [|a l IH]; intros d; simpl.
  - split; [by left|]. split; [done|]. intros x Hx. by apply elem_of_nil in Hx.
  - destruct (IH (date_max2 d a)) as (Hin & Hle & Hall).
    assert (date_le d (date_max2 d a) /\ date_le a (date_max2 d a)
            /\ (date_max2 d a = d \/ date_max2 d a = a)) as (Hd & Ha & Hor).
    { unfold date_max2. destruct (date_leb d a) eqn:E.
      - split; [exact E|]. split; [done|by right].
      - split; [done|]. split; [|by left].
        destruct (total date_le d a) as [Hda|Hda]; [|done].
        unfold date_le in Hda. congruence. }
    split; [|split].
    + destruct Hin as [->|Hin].
      * destruct Hor as [->| ->]; [by left|right; by left].
      * right. by right.
    + by etrans.
    + intros x Hx. apply elem_of_cons in Hx as [->|Hx]; [by etrans|by apply Hall].
Qed.

Lemma dates_min_spec l lo :
  dates_min l = Some lo -> lo ∈ l /\ forall x, x ∈ l -> date_le lo x.
Proof.
  destruct l as [|d l]; [done|]. simpl. intros [= <-].
  destruct (foldl_min_spec l d) as (Hin & Hle & Hall). split.
  - destruct Hin as [->|Hin]; [by left|by right].
  - intros x Hx. apply elem_of_cons in Hx as [->|Hx]; [done|by apply Hall].
Qed.

Lemma dates_max_spec l hi :
  dates_max l = Some hi -> hi ∈ l /\ forall x, x ∈ l -> date_le x hi.
Proof.
  destruct l as [|d l]; [done|]. simpl. intros [= <-].
  destruct (foldl_max_spec l d) as (Hin & Hle & Hall). split.
  - destruct Hin as [->|Hin]; [by left|by right].
  - intros x Hx. apply elem_of_cons in Hx as [->|Hx]; [done|by apply Hall].
Qed.

Lemma dates_min_is_Some l : l <> [] -> is_Some (dates_min l).
Proof. destruct l; [done|]. intros _. by eexists. Qed.

Lemma dates_max_is_Some l : l <> [] -> is_Some (dates_max l).
Proof. destruct l; [done|]. intros _. by eexists. Qed.

(** *** Month ends *)

Lemma date_lt_next_month_end d : date_lt d (next_month_end d).
Proof.
  unfold date_lt, next_month_end. rewrite date_ltb_iff.
  destruct (month d =? 12) eqn:E; simpl; lia.
Qed.

Lemma is_month_end_next d : is_month_end (next_month_end d) = true.
Proof.
  unfold next_month_end, is_month_end, month_end.
  destruct (month d =? 12); cbn [year month day]; apply Z.eqb_refl.
Qed.

Lemma month_ok_next d : month_ok d -> month_ok (next_month_end d).
Proof.
  unfold month_ok, next_month_end.
  destruct (Z.eqb_spec (month d) 12); simpl; lia.
Qed.

Lemma month_index_next d :
  12 * year (next_month_end d) + month (next_month_end d)
  = 12 * year d + month d + 1.
Proof.
  unfold next_month_end. destruct (Z.eqb_spec (month d) 12); simpl; lia.
Qed.

(** Month ends are discrete: from one month end, the next one at or
    after it is either itself or at least the following month end. *)
Lemma month_end_step cur e :
  is_month_end cur = true -> is_month_end e = true ->
  month_ok cur -> month_ok e ->
  date_le cur e <-> e = cur \/ date_le (next_month_end cur) e.
Proof.
  unfold is_month_end, month_ok. intros Hc He Hmc Hme.
  apply Z.eqb_eq in Hc, He. split.
  - intros Hle. unfold date_le in *. rewrite date_leb_iff in *.
    rewrite date_eq_iff. unfold next_month_end.
    assert (year cur = year e -> month cur + 1 = month e ->
            days_in_month (year cur) (month cur + 1)
            = days_in_month (year e) (month e)) as H1
      by (intros -> ->; done).
    assert (year cur = year e -> month cur = month e ->
            days_in_month (year cur) (month cur)
            = days_in_month (year e) (month e)) as H1'
      by (intros -> ->; done).
    assert (month e = 1 -> days_in_month (year e) (month e) = 31) as H2
      by (intros ->; done).
    assert (days_in_month (year cur + 1) 1 = 31) as H3 by done.
    unfold month_end.
    destruct (Z.eqb_spec (month cur) 12); cbn [year month day]; lia.
  - intros [->|Hn]; [done|].
    pose proof (date_lt_next_month_end cur) as Hlt.
    apply date_lt_le_ne in Hlt as [Hlt _]. by etrans.
Qed.

Lemma month_ends_until_lower fuel : forall cur stop e,
  e ∈ month_ends_until fuel cur stop -> date_le cur e.
Proof.
  induction fuel as [|f IH]; intros cur stop e; simpl.
  - intros Hin. by apply elem_of_nil in Hin.
  - destruct (date_leb cur stop); [|intros Hin; by apply elem_of_nil in Hin].
    intros [->|Hin]%elem_of_cons; [done|].
    apply IH in Hin.
    pose proof (date_lt_next_month_end cur) as [Hlt _]%date_lt_le_ne.
    by etrans.
Qed.

Lemma NoDup_month_ends_until fuel : forall cur stop,
  NoDup (month_ends_until fuel cur stop).
Proof.
  induction fuel as [|f IH]; intros cur stop; simpl; [constructor|].
  destruct (date_leb cur stop); [|constructor].
  constructor; [|apply IH].
  intros Hin%month_ends_until_lower.
  pose proof (date_lt_next_month_end cur) as Hlt.
  apply date_lt_le_ne in Hlt as [Hle Hne].
  apply Hne. by apply (anti_symm date_le).
Qed.

Lemma month_ends_until_spec fuel : forall cur stop,
  is_month_end cur = true -> month_ok cur -> month_ok stop ->
  12 * year stop + month stop - (12 * year cur + month cur) + 1
    <= Z.of_nat fuel ->
  forall e, e ∈ month_ends_until fuel cur stop <->
            is_month_end e = true /\ month_ok e /\
            date_le cur e /\ date_le e stop.
Proof.
  induction fuel as [|f IH]; intros cur stop Hc Hmc Hms Hfuel e; simpl.
  - split; [intros Hin; by apply elem_of_nil in Hin|].
    intros (_ & _ & H1 & H2). exfalso.
    assert (date_le cur stop) as Hcs by (by etrans).
    unfold date_le, month_ok in *. rewrite date_leb_iff in Hcs. lia.
  - destruct (date_leb cur stop) eqn:Hcs.
    + rewrite elem_of_cons.
      rewrite (IH (next_month_end cur) stop);
        [|apply is_month_end_next|by apply month_ok_next|done|
         rewrite month_index_next; lia].
      split.
      * intros [->|(He & Hme & H1 & H2)]; [done|].
        split; [done|]. split; [done|]. split; [|done].
        apply month_end_step; [done..|]. by right.
      * intros (He & Hme & H1 & H2).
        apply month_end_step in H1; [|done..].
        destruct H1 as [->|H1]; [by left|by right].
    + split; [intros Hin; by apply elem_of_nil in Hin|].
      intros (_ & _ & H1 & H2). exfalso.
      assert (date_le cur stop) as Hle by (by etrans).
      unfold date_le in Hle. congruence.
Qed.

Lemma rollforward_spec s e :
  valid_date s -> is_month_end e = true ->
  date_le (rollforward s) e <-> date_le s e.
Proof.
  unfold valid_date, rollforward, is_month_end. intros (_ & _ & Hd) He.
  apply Z.eqb_eq in He.
  destruct (day s =? days_in_month (year s) (month s)) eqn:E; [done|].
  apply Z.eqb_neq in E. unfold date_le, month_end.
  rewrite !date_leb_iff. cbn [year month day].
  assert (year s = year e -> month s = month e ->
          days_in_month (year s) (month s)
          = days_in_month (year e) (month e)) as H1
    by (intros -> ->; done).
  lia.
Qed.

(** [pd.date_range(s, e, freq='M')] enumerates, without repetition,
    exactly the month ends of the closed interval from [s] to [e]. *)
Lemma date_range_spec s e :
  valid_date s -> valid_date e ->
  NoDup (date_range s e) /\
  forall x, x ∈ date_range s e <->
            is_month_end x = true /\ month_ok x /\
            date_le s x /\ date_le x e.
Proof.
  intros Hs He. split; [apply NoDup_month_ends_until|].
  intros x. unfold date_range.
  assert (is_month_end (rollforward s) = true) as Hrf.
  { unfold rollforward. destruct (is_month_end s) eqn:E; [done|].
    unfold is_month_end, month_end. cbn [year month day]. apply Z.eqb_refl. }
  assert (year (rollforward s) = year s /\ month (rollforward s) = month s)
    as [Hy Hm].
  { unfold rollforward. destruct (is_month_end s); done. }
  rewrite month_ends_until_spec; [|done|..].
  - split; intros (Hx & Hmx & H1 & H2);
      (split; [done|split; [done|split; [|done]]]).
    + by apply (rollforward_spec s x Hs Hx).
    + by apply (rollforward_spec s x Hs Hx).
  - unfold month_ok. rewrite Hm. apply Hs.
  - apply He.
  - rewrite Hy, Hm. unfold months_spanned. lia.
Qed.

Lemma days_in_month_bounds y m : 1 <= m <= 12 -> 28 <= days_in_month y m <= 31.
Proof.
  intros Hm. unfold days_in_month.
  destruct ((m =? 2) && is_leap y); [lia|].
  assert (m = 1 \/ m = 2 \/ m = 3 \/ m = 4 \/ m = 5 \/ m = 6 \/ m = 7 \/
          m = 8 \/ m = 9 \/ m = 10 \/ m = 11 \/ m = 12) as Hcases by lia.
  repeat (destruct Hcases as [->|Hcases]; [lia|]). subst. lia.
Qed.

(** The same enumeration, in terms of calendar dates. *)
Lemma date_range_valid_spec s e :
  valid_date s -> valid_date e ->
  NoDup (date_range s e) /\
  forall x, x ∈ date_range s e <->
            valid_date x /\ is_month_end x = true /\
            date_le s x /\ date_le x e.
Proof.
  intros Hs He. destruct (date_range_spec s e Hs He) as [Hnd Hspec].
  split; [done|]. intros x. rewrite Hspec. split.
  - intros (Hx & Hm & H1 & H2). split; [|done].
    unfold valid_date. split; [|split; [done|]].
    + unfold date_le in H1. rewrite date_leb_iff in H1.
      destruct Hs as (Hy & _). lia.
    + unfold is_month_end in Hx. apply Z.eqb_eq in Hx. rewrite Hx.
      pose proof (days_in_month_bounds (year x) (month x) Hm). lia.
  - intros (Hv & Hx & H1 & H2). split; [done|]. split; [apply Hv|done].
Qed.

(** *** Month ends counted from a start *)




Lemma rollforward_year_month x :
  year (rollforward x) = year x /\ month (rollforward x) = month x.
Proof. unfold rollforward. destruct (is_month_end x); done. Qed.

Lemma is_month_end_rollforward x : is_month_end (rollforward x) = true.
Proof.
  unfold rollforward. destruct (is_month_end x) eqn:E; [done|].
  unfold is_month_end, month_end. cbn [year month day]. apply Z.eqb_refl.
Qed.




(** *** Ordinals follow the calendar order *)

Lemma days_before_year_succ y :
  days_before_year (y + 1)
  = days_before_year y + 365 + (if is_leap y then 1 else 0).
Proof.
  unfold days_before_year, is_leap.
  replace (y + 1 - 1) with y by lia.
  destruct (Z.eqb_spec (y mod 4) 0); destruct (Z.eqb_spec (y mod 100) 0);
    destruct (Z.eqb_spec (y mod 400) 0); cbn [andb orb negb];
    Z.div_mod_to_equations; lia.
Qed.

Lemma days_before_year_mono y1 y2 :
  y1 <= y2 -> days_before_year y1 <= days_before_year y2.
Proof.
  intros Hle. unfold days_before_year. Z.div_mod_to_equations. lia.
Qed.

Lemma month_cases m :
  1 <= m <= 12 ->
  m = 1 \/ m = 2 \/ m = 3 \/ m = 4 \/ m = 5 \/ m = 6 \/
  m = 7 \/ m = 8 \/ m = 9 \/ m = 10 \/ m = 11 \/ m = 12.
Proof. lia. Qed.

Lemma days_before_month_bounds y m :
  1 <= m <= 12 ->
  0 <= days_before_month y m /\
  days_before_month y m + days_in_month y m
    <= 365 + (if is_leap y then 1 else 0).
Proof.
  intros Hm. apply month_cases in Hm.
  unfold days_before_month, days_in_month.
  destruct (is_leap y);
    repeat (destruct Hm as [->|Hm]; [cbn; lia|]); subst; cbn; lia.
Qed.

Lemma days_before_month_mono y m1 m2 :
  1 <= m1 -> m1 < m2 -> m2 <= 12 ->
  days_before_month y m1 + days_in_month y m1 <= days_before_month y m2.
Proof.
  intros H1 Hlt H2.
  assert (1 <= m1 <= 12) as Hc1 by lia. apply month_cases in Hc1.
  assert (1 <= m2 <= 12) as Hc2 by lia. apply month_cases in Hc2.
  unfold days_before_month, days_in_month.
  destruct (is_leap y);
    repeat (destruct Hc1 as [->|Hc1];
            [repeat (destruct Hc2 as [->|Hc2]; [cbn; lia|]); subst; cbn; lia|]);
    subst;
    repeat (destruct Hc2 as [->|Hc2]; [cbn; lia|]); subst; cbn; lia.
Qed.

Lemma toordinal_lt a b :
  valid_date a -> valid_date b -> date_lt a b -> toordinal a < toordinal b.
Proof.
  intros (Hya & Hma & Hda) (Hyb & Hmb & Hdb) Hlt.
  unfold date_lt in Hlt. rewrite date_ltb_iff in Hlt. unfold toordinal.
  destruct Hlt as [Hy|[Hy [Hm|[Hm Hd]]]].
  - pose proof (days_before_year_mono (year a + 1) (year b)) as Hmono.
    rewrite days_before_year_succ in Hmono.
    pose proof (days_before_month_bounds (year a) (month a) Hma) as [_ Ha].
    pose proof (days_before_month_bounds (year b) (month b) Hmb) as [Hb _].
    lia.
  - rewrite Hy in *.
    pose proof (days_before_month_mono (year b) (month a) (month b)). lia.
  - rewrite Hy, Hm in *. lia.
Qed.

Lemma toordinal_le a b :
  valid_date a -> valid_date b ->
  date_le a b <-> toordinal a <= toordinal b.
Proof.
  intros Ha Hb. split.
  - intros Hle. destruct (decide (a = b)) as [->|Hne]; [lia|].
    assert (date_lt a b) as Hlt by (apply date_lt_le_ne; done).
    pose proof (toordinal_lt a b Ha Hb Hlt). lia.
  - intros Hle. destruct (total date_le a b) as [|Hba]; [done|].
    destruct (decide (a = b)) as [->|Hne]; [done|].
    assert (date_lt b a) as Hlt by (apply date_lt_le_ne; done).
    pose proof (toordinal_lt b a Hb Ha Hlt). lia.
Qed.

Lemma toordinal_sorted (ds : list date) :
  Forall valid_date ds -> StronglySorted date_lt ds ->
  StronglySorted Z.lt (toordinal <$> ds).
Proof.
  intros Hv Hs. induction Hs as [|a l Hl IH Hall]; csimpl; constructor.
  - apply IH. by apply Forall_cons in Hv as [_ Hv].
  - apply Forall_cons in Hv as [Ha Hv]. apply Forall_fmap.
    rewrite Forall_forall in *. intros x Hx. simpl.
    apply toordinal_lt; [done|by apply Hv|by apply Hall].
Qed.

End CalendarFacts.

(** ** The storage-contract valuer *)
Module ContractFacts.
Import Calendar CalendarFacts PriceStorageContract.

#[export] Instance Z_ExactNum : ExactNum Z.
Proof.
  split; simpl; intros; rewrite ?Z.leb_le in *; lia.
Qed.

#[export] Instance Q_ExactNum : ExactNum Q.
Proof.
  split; simpl; intros; rewrite ?Qle_bool_iff in *; lra.
Qed.

(** [index] finds the first occurrence, and finds one for every date of
    the schedule. *)
Lemma index_Some d dates i :
  index d dates = Some i <->
  dates !! i = Some d /\ forall j, (j < i)%nat -> dates !! j <> Some d.
Proof.
  unfold index. split.
  - intros Hi. apply fmap_Some in Hi as ([k x] & Hf & ->).
    apply list_find_Some in Hf as (Hk & -> & Hfirst). simpl.
    split; [done|]. intros j Hj Hdj. by eapply Hfirst.
  - intros [Hi Hfirst]. apply fmap_Some. exists (i, d). split; [|done].
    apply list_find_Some. split; [done|]. split; [done|].
    intros j y Hy Hj ->. by eapply Hfirst.
Qed.

Lemma index_is_Some d dates : d ∈ dates -> is_Some (index d dates).
Proof.
  intros Hd. unfold index.
  destruct (list_find_elem_of (fun x => x = d) dates d Hd eq_refl) as [[i x] Hf].
  rewrite Hf. by eexists.
Qed.

Lemma index_None d dates : d ∉ dates -> index d dates = None.
Proof.
  intros Hd. destruct (index d dates) as [i|] eqn:E; [|done].
  apply index_Some in E as [Hi _]. exfalso. apply Hd.
  by eapply list_elem_of_lookup_2.
Qed.

(** C1.  On the example scenario of the module (injections on
    2023-05-01..03 at 2.0, 2.1, 2.2; withdrawals on 2023-11-01..03 at
    3.0, 3.1, 3.2; both rates 1e6, capacity 3e6, storage cost 100000,
    operation cost 10000, transport cost 50000) the valuer returns
    exactly 2040000, in binary64 arithmetic. *)
Theorem example_contract_value :
  Example.contract_value = Ok 2040000%float.
Proof. vm_compute. reflexivity. Qed.

(** *** One iteration of the loop, spelled out *)

(** The injection branch.  On a date outside the injection schedule it
    does nothing.  On a scheduled date whose first position in the
    schedule is [i], the guard decides: either the event is committed at
    the price listed at position [i] (an [IndexError] when the price
    list is too short), or a message is printed. *)
Lemma inject_unfold {num} `{Num num}
    (injection_dates : list date) (purchase_prices : list num)
    (injection_rate max_storage : num)
    (injection_withdrawal_cost transportation_cost : num)
    (d : date) (s : state) :
  (d ∉ injection_dates ->
   inject injection_dates purchase_prices injection_rate max_storage
     injection_withdrawal_cost transportation_cost d s = Ok s) /\
  (forall i,
     injection_dates !! i = Some d ->
     (forall j, (j < i)%nat -> injection_dates !! j <> Some d) ->
     inject injection_dates purchase_prices injection_rate max_storage
       injection_withdrawal_cost transportation_cost d s
     = if leb (volume s) (sub max_storage injection_rate) then
         match purchase_prices !! i with
         | Some p =>
             Ok (mkstate
                   (add (volume s) injection_rate)
                   (add (total_purchase_cost s) (mul injection_rate p))
                   (total_sales_revenue s)
                   (add (total_injection_withdrawal_cost s)
                        injection_withdrawal_cost)
                   (add (total_transportation_cost s) transportation_cost)
                   (printed s))
         | None => Raise IndexError
         end
       else
         Ok (mkstate (volume s) (total_purchase_cost s)
               (total_sales_revenue s) (total_injection_withdrawal_cost s)
               (total_transportation_cost s)
               (printed s ++ [Insufficient_storage_space d]))).
Proof.
  unfold inject. split.
  - intros Hd. by rewrite bool_decide_eq_false_2.
  - intros i Hi Hfirst.
    rewrite bool_decide_eq_true_2 by (by eapply list_elem_of_lookup_2).
    assert (index d injection_dates = Some i) as ->
      by (by apply index_Some).
    simpl. destruct (leb _ _); [|done].
    by destruct (purchase_prices !! i).
Qed.

(** The withdrawal branch, likewise. *)
Lemma withdraw_unfold {num} `{Num num}
    (withdrawal_dates : list date) (sale_prices : list num)
    (withdrawal_rate : num)
    (injection_withdrawal_cost transportation_cost : num)
    (d : date) (s : state) :
  (d ∉ withdrawal_dates ->
   withdraw withdrawal_dates sale_prices withdrawal_rate
     injection_withdrawal_cost transportation_cost d s = Ok s) /\
  (forall i,
     withdrawal_dates !! i = Some d ->
     (forall j, (j < i)%nat -> withdrawal_dates !! j <> Some d) ->
     withdraw withdrawal_dates sale_prices withdrawal_rate
       injection_withdrawal_cost transportation_cost d s
     = if leb withdrawal_rate (volume s) then
         match sale_prices !! i with
         | Some p =>
             Ok (mkstate
                   (sub (volume s) withdrawal_rate)
                   (total_purchase_cost s)
                   (add (total_sales_revenue s) (mul withdrawal_rate p))
                   (add (total_injection_withdrawal_cost s)
                        injection_withdrawal_cost)
                   (add (total_transportation_cost s) transportation_cost)
                   (printed s))
         | None => Raise IndexError
         end
       else
         Ok (mkstate (volume s) (total_purchase_cost s)
               (total_sales_revenue s) (total_injection_withdrawal_cost s)
               (total_transportation_cost s)
               (printed s ++ [Insufficient_gas_stored d]))).
Proof.
  unfold withdraw. split.
  - intros Hd. by rewrite bool_decide_eq_false_2.
  - intros i Hi Hfirst.
    rewrite bool_decide_eq_true_2 by (by eapply list_elem_of_lookup_2).
    assert (index d withdrawal_dates = Some i) as ->
      by (by apply index_Some).
    simpl. destruct (leb _ _); [|done].
    by destruct (sale_prices !! i).
Qed.

(** C5.  What the loop does on a visited date [d], from any state [s].

    Injection.  If [d] is not in the injection schedule the injection
    branch leaves the state alone.  If it is, and [i] is its first
    position there, then the injection is committed exactly when
    [volume <= max_storage - injection_rate]: the volume grows by the
    rate, the purchase cost by rate times the unit price at position
    [i], one operation cost and one transport cost are charged, and
    nothing else changes (when the price list has no position [i] the
    committed event raises [IndexError]).  When the guard fails, no
    accumulator and no volume changes and the message naming [d] is
    printed.

    Withdrawal.  Symmetrically, with the guard [volume >=
    withdrawal_rate], the sale revenue and the other message.

    The loop.  One iteration runs the injection branch and then, on the
    state it leaves, the withdrawal branch; the loop then goes on with
    the remaining dates from the state so reached.  A failed guard
    yields a state like any other, so it does not stop the loop. *)
Theorem guard_decides_event {num} `{Num num}
    (injection_dates withdrawal_dates : list date)
    (purchase_prices sale_prices : list num)
    (injection_rate withdrawal_rate max_storage : num)
    (injection_withdrawal_cost transportation_cost : num)
    (d : date) (s : state) :
  let injection :=
    inject injection_dates purchase_prices injection_rate max_storage
      injection_withdrawal_cost transportation_cost in
  let withdrawal :=
    withdraw withdrawal_dates sale_prices withdrawal_rate
      injection_withdrawal_cost transportation_cost in
  let iteration :=
    visit injection_dates withdrawal_dates purchase_prices sale_prices
      injection_rate withdrawal_rate max_storage
      injection_withdrawal_cost transportation_cost in
  let loop :=
    simulate injection_dates withdrawal_dates purchase_prices sale_prices
      injection_rate withdrawal_rate max_storage
      injection_withdrawal_cost transportation_cost in
  (d ∉ injection_dates -> injection d s = Ok s) /\
  (forall i,
     injection_dates !! i = Some d ->
     (forall j, (j < i)%nat -> injection_dates !! j <> Some d) ->
     injection d s
     = if leb (volume s) (sub max_storage injection_rate) then
         match purchase_prices !! i with
         | Some p =>
             Ok (mkstate
                   (add (volume s) injection_rate)
                   (add (total_purchase_cost s) (mul injection_rate p))
                   (total_sales_revenue s)
                   (add (total_injection_withdrawal_cost s)
                        injection_withdrawal_cost)
                   (add (total_transportation_cost s) transportation_cost)
                   (printed s))
         | None => Raise IndexError
         end
       else
         Ok (mkstate (volume s) (total_purchase_cost s)
               (total_sales_revenue s) (total_injection_withdrawal_cost s)
               (total_transportation_cost s)
               (printed s ++ [Insufficient_storage_space d]))) /\
  (d ∉ withdrawal_dates -> withdrawal d s = Ok s) /\
  (forall i,
     withdrawal_dates !! i = Some d ->
     (forall j, (j < i)%nat -> withdrawal_dates !! j <> Some d) ->
     withdrawal d s
     = if leb withdrawal_rate (volume s) then
         match sale_prices !! i with
         | Some p =>
             Ok (mkstate
                   (sub (volume s) withdrawal_rate)
                   (total_purchase_cost s)
                   (add (total_sales_revenue s) (mul withdrawal_rate p))
                   (add (total_injection_withdrawal_cost s)
                        injection_withdrawal_cost)
                   (add (total_transportation_cost s) transportation_cost)
                   (printed s))
         | None => Raise IndexError
         end
       else
         Ok (mkstate (volume s) (total_purchase_cost s)
               (total_sales_revenue s) (total_injection_withdrawal_cost s)
               (total_transportation_cost s)
               (printed s ++ [Insufficient_gas_stored d]))) /\
  iteration d s
  = match injection d s with
    | Ok s1 => withdrawal d s1
    | Raise e => Raise e
    end /\
  loop [] s = Ok s /\
  (forall rest,
     loop (d :: rest) s
     = match injection d s with
       | Ok s1 =>
           match withdrawal d s1 with
           | Ok s2 => loop rest s2
           | Raise e => Raise e
           end
       | Raise e => Raise e
       end).
Proof.
  intros injection withdrawal iteration loop.
  destruct (inject_unfold injection_dates purchase_prices injection_rate
              max_storage injection_withdrawal_cost transportation_cost d s)
    as [Hi0 Hi1].
  destruct (withdraw_unfold withdrawal_dates sale_prices withdrawal_rate
              injection_withdrawal_cost transportation_cost d s)
    as [Hw0 Hw1].
  split; [exact Hi0|]. split; [exact Hi1|].
  split; [exact Hw0|]. split; [exact Hw1|].
  split; [reflexivity|]. split; [reflexivity|].
  intros rest. unfold loop, injection, withdrawal. simpl. unfold visit.
  destruct (inject _ _ _ _ _ _ d s) as [s1|e]; simpl; [|done].
  by destruct (withdraw _ _ _ _ _ d s1).
Qed.

(** C6, as stated, fails in binary64: with positive rates and capacity
    the guard [volume <= max_storage - injection_rate] passes on a
    rounded difference, and the rounded sum [volume + injection_rate]
    ends above [max_storage]. *)
Lemma volume_exceeds_max_storage_in_binary64 :
  positive Rounding.injection_rate /\
  positive Rounding.withdrawal_rate /\
  positive Rounding.max_storage /\
  exists s, Rounding.final_state = Ok s /\
            printed s = [] /\
            volume s = 2%float /\
            leb (volume s) Rounding.max_storage = false /\
            ~ volume_in_bounds Rounding.max_storage s.
Proof.
  repeat split; try (vm_compute; reflexivity).
  eexists. split; [vm_compute; reflexivity|].
  repeat split; try (vm_compute; reflexivity).
  intros [_ Hle]. vm_compute in Hle. discriminate.
Qed.

Section Invariant.
Context {num : Type} `{ExactNum num}.
Variables (injection_dates withdrawal_dates : list date).
Variables (purchase_prices sale_prices : list num).
Variables (injection_rate withdrawal_rate max_storage : num).
Variables (injection_withdrawal_cost transportation_cost : num).
Hypothesis injection_rate_pos : positive injection_rate.
Hypothesis withdrawal_rate_pos : positive withdrawal_rate.

Lemma inject_in_bounds d s s' :
  volume_in_bounds max_storage s ->
  inject injection_dates purchase_prices injection_rate max_storage
    injection_withdrawal_cost transportation_cost d s = Ok s' ->
  volume_in_bounds max_storage s'.
Proof.
  intros [Hz Hm]. unfold inject. case_bool_decide; [|by intros [= <-]].
  destruct (index _ _); simpl; [|done].
  destruct (leb (volume s) (sub max_storage injection_rate)) eqn:G.
  - destruct (purchase_prices !! _); simpl; [|done]. intros [= <-].
    split; simpl.
    + apply leb_zero_add; [done|apply injection_rate_pos].
    + by apply leb_add_of_leb_sub.
  - intros [= <-]. done.
Qed.

Lemma withdraw_in_bounds d s s' :
  volume_in_bounds max_storage s ->
  withdraw withdrawal_dates sale_prices withdrawal_rate
    injection_withdrawal_cost transportation_cost d s = Ok s' ->
  volume_in_bounds max_storage s'.
Proof.
  intros [Hz Hm]. unfold withdraw. case_bool_decide; [|by intros [= <-]].
  destruct (index _ _); simpl; [|done].
  destruct (leb withdrawal_rate (volume s)) eqn:G.
  - destruct (sale_prices !! _); simpl; [|done]. intros [= <-].
    split; simpl.
    + by apply leb_zero_sub.
    + apply leb_sub_of_leb; [done|apply withdrawal_rate_pos].
  - intros [= <-]. done.
Qed.

Lemma simulate_in_bounds dates : forall s s',
  volume_in_bounds max_storage s ->
  simulate injection_dates withdrawal_dates purchase_prices sale_prices
    injection_rate withdrawal_rate max_storage
    injection_withdrawal_cost transportation_cost dates s = Ok s' ->
  volume_in_bounds max_storage s'.
Proof.
  induction dates as [|d rest IH]; intros s s' Hs; simpl.
  - by intros [= <-].
  - unfold visit.
    destruct (inject _ _ _ _ _ _ d s) as [s1|] eqn:E1; simpl; [|done].
    destruct (withdraw _ _ _ _ _ d s1) as [s2|] eqn:E2; simpl; [|done].
    apply IH. eapply withdraw_in_bounds; [|done].
    by eapply inject_in_bounds.
Qed.
End Invariant.

(** C6, amended.  When the arithmetic on volumes is exact (integers,
    rationals: no rounding), with positive rates and capacity the
    running volume satisfies [0 <= volume <= max_storage] initially,
    after every injection step, after every withdrawal step, and in
    every state the date loop reaches. *)
Theorem volume_stays_in_bounds {num} `{ExactNum num}
    (injection_dates withdrawal_dates : list date)
    (purchase_prices sale_prices : list num)
    (injection_rate withdrawal_rate max_storage : num)
    (injection_withdrawal_cost transportation_cost : num) :
  positive injection_rate -> positive withdrawal_rate ->
  positive max_storage ->
  volume_in_bounds max_storage initial /\
  (forall d s s',
     volume_in_bounds max_storage s ->
     inject injection_dates purchase_prices injection_rate max_storage
       injection_withdrawal_cost transportation_cost d s = Ok s' ->
     volume_in_bounds max_storage s') /\
  (forall d s s',
     volume_in_bounds max_storage s ->
     withdraw withdrawal_dates sale_prices withdrawal_rate
       injection_withdrawal_cost transportation_cost d s = Ok s' ->
     volume_in_bounds max_storage s') /\
  (forall dates s',
     simulate injection_dates withdrawal_dates purchase_prices sale_prices
       injection_rate withdrawal_rate max_storage
       injection_withdrawal_cost transportation_cost dates initial = Ok s' ->
     volume_in_bounds max_storage s').
Proof.
  intros Hi Hw Hm. split; [|split; [|split]].
  - split; simpl; [apply leb_zero_zero|apply Hm].
  - intros d s s'. by apply inject_in_bounds.
  - intros d s s'. by apply withdraw_in_bounds.
  - intros dates s'. apply simulate_in_bounds; [done..|].
    split; simpl; [apply leb_zero_zero|apply Hm].
Qed.

(** C7.  With non-empty schedules of calendar dates, the storage cost
    charged is [storage_cost] times the number of month ends in the
    closed interval from the earliest injection date to the latest
    withdrawal date.  It is computed from the dates and [storage_cost]
    alone, and subtracted once from whatever accumulators the event loop
    ends with. *)
Theorem storage_cost_is_flat {num} `{Num num}
    (injection_dates withdrawal_dates : list date)
    (purchase_prices sale_prices : list num)
    (injection_rate withdrawal_rate max_storage : num)
    (storage_cost injection_withdrawal_cost transportation_cost : num) :
  injection_dates <> [] -> withdrawal_dates <> [] ->
  Forall valid_date injection_dates -> Forall valid_date withdrawal_dates ->
  exists (first_injection last_withdrawal : date) (month_ends : list date),
    (first_injection ∈ injection_dates /\
     forall d, d ∈ injection_dates -> date_le first_injection d) /\
    (last_withdrawal ∈ withdrawal_dates /\
     forall d, d ∈ withdrawal_dates -> date_le d last_withdrawal) /\
    NoDup month_ends /\
    (forall e, e ∈ month_ends <->
               valid_date e /\ is_month_end e = true /\
               date_le first_injection e /\ date_le e last_withdrawal) /\
    total_storage_cost injection_dates withdrawal_dates storage_cost
      = Ok (mul storage_cost (of_count (length month_ends))) /\
    forall s,
      simulate injection_dates withdrawal_dates purchase_prices sale_prices
        injection_rate withdrawal_rate max_storage
        injection_withdrawal_cost transportation_cost
        (all_dates injection_dates withdrawal_dates) initial = Ok s ->
      run injection_dates withdrawal_dates purchase_prices sale_prices
        injection_rate withdrawal_rate max_storage storage_cost
        injection_withdrawal_cost transportation_cost
      = Ok (s, sub (sub (sub (sub (total_sales_revenue s)
                                  (total_purchase_cost s))
                             (mul storage_cost
                                  (of_count (length month_ends))))
                        (total_injection_withdrawal_cost s))
                   (total_transportation_cost s)).
Proof.
  intros Hi Hw Hvi Hvw.
  destruct (dates_min_is_Some _ Hi) as [lo Hlo].
  destruct (dates_max_is_Some _ Hw) as [hi Hhi].
  pose proof (dates_min_spec _ _ Hlo) as [Hlo_in Hlo_le].
  pose proof (dates_max_spec _ _ Hhi) as [Hhi_in Hhi_le].
  assert (valid_date lo) as Hvlo.
  { rewrite Forall_forall in Hvi. by apply Hvi. }
  assert (valid_date hi) as Hvhi.
  { rewrite Forall_forall in Hvw. by apply Hvw. }
  destruct (date_range_valid_spec lo hi Hvlo Hvhi) as [Hnd Hspec].
  exists lo, hi, (date_range lo hi).
  assert (total_storage_cost injection_dates withdrawal_dates storage_cost
          = Ok (mul storage_cost (of_count (length (date_range lo hi)))))
    as Hcost.
  { unfold total_storage_cost, storage_duration. rewrite Hlo, Hhi. done. }
  repeat (split; [done|]).
  intros s Hs. unfold run. rewrite Hs. simpl. rewrite Hcost. done.
Qed.

(** C8, as stated, fails: with an empty withdrawal schedule the event
    loop runs to its end (here three committed injections), then
    [max()] of the empty schedule is [NaT] and the month count raises;
    no value comes back, in particular not the one a storage duration
    of zero would give. *)
Lemma empty_withdrawal_schedule_raises :
  dates_max [] = None /\
  (exists s,
     simulate Example.injection_dates [] Example.purchase_prices []
       Example.injection_rate Example.withdrawal_rate Example.max_storage
       Example.injection_withdrawal_cost Example.transportation_cost
       (all_dates Example.injection_dates []) initial = Ok s /\
     volume s = 3e6%float /\ printed s = []) /\
  storage_duration Example.injection_dates [] = Raise ValueError /\
  price_storage_contract Example.injection_dates []
    Example.purchase_prices []
    Example.injection_rate Example.withdrawal_rate Example.max_storage
    Example.storage_cost Example.injection_withdrawal_cost
    Example.transportation_cost = Raise ValueError.
Proof.
  split; [done|]. split; [|split; vm_compute; reflexivity].
  eexists. split; [vm_compute; reflexivity|]. split; vm_compute; reflexivity.
Qed.

Lemma simulate_raises {num} `{Num num}
    (injection_dates withdrawal_dates : list date)
    (purchase_prices sale_prices : list num)
    (injection_rate withdrawal_rate max_storage : num)
    (injection_withdrawal_cost transportation_cost : num) dates :
  forall s e,
    simulate injection_dates withdrawal_dates purchase_prices sale_prices
      injection_rate withdrawal_rate max_storage
      injection_withdrawal_cost transportation_cost dates s = Raise e ->
    e = ValueError \/ e = IndexError.
Proof.
  induction dates as [|d rest IH]; intros s e; simpl; [done|].
  unfold visit.
  destruct (inject _ _ _ _ _ _ d s) as [s1|e1] eqn:E1; simpl.
  - destruct (withdraw _ _ _ _ _ d s1) as [s2|e2] eqn:E2; simpl;
      [by apply IH|].
    intros [= <-]. revert E2. unfold withdraw.
    case_bool_decide; [|done].
    destruct (index _ _); simpl; [|intros [= <-]; by left].
    destruct (leb _ _); [|done].
    destruct (sale_prices !! _); simpl; [done|]. intros [= <-]. by right.
  - intros [= <-]. revert E1. unfold inject.
    case_bool_decide; [|done].
    destruct (index _ _); simpl; [|intros [= <-]; by left].
    destruct (leb _ _); [|done].
    destruct (purchase_prices !! _); simpl; [done|]. intros [= <-]. by right.
Qed.

(** C8, amended.  When the withdrawal schedule is empty the valuer
    returns no value: the month-count step raises [ValueError] (from
    [pd.date_range], whose end bound is the [NaT] that [max()] gives on
    the empty schedule), unless the event loop has already raised on a
    missing price. *)
Theorem empty_withdrawal_schedule_is_unguarded {num} `{Num num}
    (injection_dates : list date)
    (purchase_prices sale_prices : list num)
    (injection_rate withdrawal_rate max_storage : num)
    (storage_cost injection_withdrawal_cost transportation_cost : num) :
  storage_duration injection_dates [] = Raise ValueError /\
  (price_storage_contract injection_dates [] purchase_prices sale_prices
     injection_rate withdrawal_rate max_storage storage_cost
     injection_withdrawal_cost transportation_cost = Raise ValueError \/
   price_storage_contract injection_dates [] purchase_prices sale_prices
     injection_rate withdrawal_rate max_storage storage_cost
     injection_withdrawal_cost transportation_cost = Raise IndexError).
Proof.
  assert (storage_duration injection_dates [] = Raise ValueError) as Hd.
  { unfold storage_duration. destruct (dates_min injection_dates); done. }
  split; [done|].
  unfold price_storage_contract, run, total_storage_cost.
  destruct (simulate _ _ _ _ _ _ _ _ _ _ _) as [s|e] eqn:E; simpl.
  - rewrite Hd. simpl. by left.
  - apply simulate_raises in E as [-> | ->]; auto.
Qed.

Lemma StronglySorted_lt_of_le (l : list date) :
  StronglySorted date_le l -> NoDup l -> StronglySorted date_lt l.
Proof.
  induction 1 as [|a l Hl IH Hall]; intros Hnd; [constructor|].
  apply NoDup_cons in Hnd as [Ha Hnd]. constructor; [by apply IH|].
  rewrite Forall_forall in *. intros x Hx.
  apply date_lt_le_ne. split; [by apply Hall|].
  intros ->. done.
Qed.

Lemma all_dates_spec (injection_dates withdrawal_dates : list date) :
  StronglySorted date_lt (all_dates injection_dates withdrawal_dates) /\
  NoDup (all_dates injection_dates withdrawal_dates) /\
  forall d, d ∈ all_dates injection_dates withdrawal_dates <->
            d ∈ injection_dates \/ d ∈ withdrawal_dates.
Proof.
  unfold all_dates.
  set (u := remove_dups (injection_dates ++ withdrawal_dates)).
  assert (NoDup (merge_sort date_le u)) as Hnd.
  { rewrite merge_sort_Permutation. apply NoDup_remove_dups. }
  split; [|split; [done|]].
  - apply StronglySorted_lt_of_le; [|done].
    apply StronglySorted_merge_sort; apply _.
  - intros d. rewrite merge_sort_Permutation. unfold u.
    rewrite elem_of_remove_dups. apply elem_of_app.
Qed.

(** The loop is a left-to-right pass over the list of dates: each date
    in turn, the injection branch and then the withdrawal branch; an
    exception ends it. *)
Lemma simulate_foldl {num} `{Num num}
    (injection_dates withdrawal_dates : list date)
    (purchase_prices sale_prices : list num)
    (injection_rate withdrawal_rate max_storage : num)
    (injection_withdrawal_cost transportation_cost : num)
    (dates : list date) : forall r : result state,
  foldl (fun acc d =>
           match acc with
           | Ok s0 =>
               match inject injection_dates purchase_prices injection_rate
                       max_storage injection_withdrawal_cost
                       transportation_cost d s0 with
               | Ok s1 =>
                   withdraw withdrawal_dates sale_prices withdrawal_rate
                     injection_withdrawal_cost transportation_cost d s1
               | Raise e => Raise e
               end
           | Raise e => Raise e
           end) r dates
  = match r with
    | Ok s =>
        simulate injection_dates withdrawal_dates purchase_prices sale_prices
          injection_rate withdrawal_rate max_storage
          injection_withdrawal_cost transportation_cost dates s
    | Raise e => Raise e
    end.
Proof.
  induction dates as [|d dates IH]; intros r; simpl.
  - by destruct r.
  - rewrite IH. destruct r as [s|e]; [|done].
    unfold visit. destruct (inject _ _ _ _ _ _ d s); done.
Qed.

(** C10.  The dates the valuer visits are the dates of the two
    schedules, each exactly once, in strictly ascending order: the
    function is one left-to-right pass over a strictly ascending,
    duplicate-free list [visited] holding exactly those dates, followed
    by the storage cost.  On each visited date the injection branch runs
    first and the withdrawal branch runs on the state it leaves.  A date
    that occurs several times in a schedule gives rise to one event of
    that kind at most, decided by the guard and priced at the position
    [i] of its first occurrence; a date outside a schedule gives rise
    to none of that kind. *)
Theorem dates_visited_once_in_order {num} `{Num num}
    (injection_dates withdrawal_dates : list date)
    (purchase_prices sale_prices : list num)
    (injection_rate withdrawal_rate max_storage : num)
    (storage_cost injection_withdrawal_cost transportation_cost : num) :
  let injection :=
    inject injection_dates purchase_prices injection_rate max_storage
      injection_withdrawal_cost transportation_cost in
  let withdrawal :=
    withdraw withdrawal_dates sale_prices withdrawal_rate
      injection_withdrawal_cost transportation_cost in
  exists visited : list date,
    StronglySorted date_lt visited /\ NoDup visited /\
    (forall d, d ∈ visited <-> d ∈ injection_dates \/ d ∈ withdrawal_dates) /\
    run injection_dates withdrawal_dates purchase_prices sale_prices
      injection_rate withdrawal_rate max_storage storage_cost
      injection_withdrawal_cost transportation_cost
    = match
        foldl (fun acc d =>
                 match acc with
                 | Ok s0 =>
                     match injection d s0 with
                     | Ok s1 => withdrawal d s1
                     | Raise e => Raise e
                     end
                 | Raise e => Raise e
                 end) (Ok initial) visited
      with
      | Ok s =>
          match total_storage_cost injection_dates withdrawal_dates
                  storage_cost with
          | Ok storage => Ok (s, contract_value s storage)
          | Raise e => Raise e
          end
      | Raise e => Raise e
      end /\
    (forall d s, d ∉ injection_dates -> injection d s = Ok s) /\
    (forall d s i,
       injection_dates !! i = Some d ->
       (forall j, (j < i)%nat -> injection_dates !! j <> Some d) ->
       injection d s
       = if leb (volume s) (sub max_storage injection_rate) then
           match purchase_prices !! i with
           | Some p =>
               Ok (mkstate
                     (add (volume s) injection_rate)
                     (add (total_purchase_cost s) (mul injection_rate p))
                     (total_sales_revenue s)
                     (add (total_injection_withdrawal_cost s)
                          injection_withdrawal_cost)
                     (add (total_transportation_cost s) transportation_cost)
                     (printed s))
           | None => Raise IndexError
           end
         else
           Ok (mkstate (volume s) (total_purchase_cost s)
                 (total_sales_revenue s) (total_injection_withdrawal_cost s)
                 (total_transportation_cost s)
                 (printed s ++ [Insufficient_storage_space d]))) /\
    (forall d s, d ∉ withdrawal_dates -> withdrawal d s = Ok s) /\
    (forall d s i,
       withdrawal_dates !! i = Some d ->
       (forall j, (j < i)%nat -> withdrawal_dates !! j <> Some d) ->
       withdrawal d s
       = if leb withdrawal_rate (volume s) then
           match sale_prices !! i with
           | Some p =>
               Ok (mkstate
                     (sub (volume s) withdrawal_rate)
                     (total_purchase_cost s)
                     (add (total_sales_revenue s) (mul withdrawal_rate p))
                     (add (total_injection_withdrawal_cost s)
                          injection_withdrawal_cost)
                     (add (total_transportation_cost s) transportation_cost)
                     (printed s))
           | None => Raise IndexError
           end
         else
           Ok (mkstate (volume s) (total_purchase_cost s)
                 (total_sales_revenue s) (total_injection_withdrawal_cost s)
                 (total_transportation_cost s)
                 (printed s ++ [Insufficient_gas_stored d]))).
Proof.
  intros injection withdrawal.
  exists (all_dates injection_dates withdrawal_dates).
  destruct (all_dates_spec injection_dates withdrawal_dates)
    as (Hsorted & Hnodup & Hmem).
  split; [exact Hsorted|]. split; [exact Hnodup|]. split; [exact Hmem|].
  split.
  { unfold injection, withdrawal. rewrite simulate_foldl. unfold run.
    destruct (simulate _ _ _ _ _ _ _ _ _ _ _) as [s|e]; simpl; [|done].
    by destruct (total_storage_cost _ _ _). }
  split.
  { intros d s. apply inject_unfold. }
  split.
  { intros d s. apply inject_unfold. }
  split.
  { intros d s. apply withdraw_unfold. }
  intros d s. apply withdraw_unfold.
Qed.

(** *** The theorems at work on the example scenario *)

Lemma volume_stays_in_bounds_witness :
  positive 2%Z /\ positive 1%Z /\ positive 5%Z /\
  forall dates s',
    simulate [mkdate 2023 5 1; mkdate 2023 5 2] [mkdate 2023 5 2]
      [3; 4]%Z [6]%Z 2%Z 1%Z 5%Z 0%Z 0%Z dates initial = Ok s' ->
    volume_in_bounds 5%Z s'.
Proof.
  assert (positive 2%Z /\ positive 1%Z /\ positive 5%Z) as (H2 & H1 & H5)
    by (repeat split; reflexivity).
  repeat (split; [done|]).
  apply (volume_stays_in_bounds
           [mkdate 2023 5 1; mkdate 2023 5 2] [mkdate 2023 5 2]
           [3; 4]%Z [6]%Z 2%Z 1%Z 5%Z 0%Z 0%Z H2 H1 H5).
Defined.

Lemma storage_cost_is_flat_witness :
  exists (first_injection last_withdrawal : date) (month_ends : list date),
    (first_injection ∈ Example.injection_dates /\
     forall d, d ∈ Example.injection_dates -> date_le first_injection d) /\
    (last_withdrawal ∈ Example.withdrawal_dates /\
     forall d, d ∈ Example.withdrawal_dates -> date_le d last_withdrawal) /\
    NoDup month_ends /\
    (forall e, e ∈ month_ends <->
               valid_date e /\ is_month_end e = true /\
               date_le first_injection e /\ date_le e last_withdrawal) /\
    total_storage_cost Example.injection_dates Example.withdrawal_dates
      Example.storage_cost
      = Ok (mul Example.storage_cost (of_count (length month_ends))) /\
    forall s,
      simulate Example.injection_dates Example.withdrawal_dates
        Example.purchase_prices Example.sale_prices
        Example.injection_rate Example.withdrawal_rate Example.max_storage
        Example.injection_withdrawal_cost Example.transportation_cost
        (all_dates Example.injection_dates Example.withdrawal_dates)
        initial = Ok s ->
      run Example.injection_dates Example.withdrawal_dates
        Example.purchase_prices Example.sale_prices
        Example.injection_rate Example.withdrawal_rate Example.max_storage
        Example.storage_cost Example.injection_withdrawal_cost
        Example.transportation_cost
      = Ok (s, sub (sub (sub (sub (total_sales_revenue s)
                                  (total_purchase_cost s))
                             (mul Example.storage_cost
                                  (of_count (length month_ends))))
                        (total_injection_withdrawal_cost s))
                   (total_transportation_cost s)).
Proof.
  apply (storage_cost_is_flat
           Example.injection_dates Example.withdrawal_dates
           Example.purchase_prices Example.sale_prices
           Example.injection_rate Example.withdrawal_rate
           Example.max_storage Example.storage_cost
           Example.injection_withdrawal_cost Example.transportation_cost).
  - discriminate.
  - discriminate.
  - unfold Example.injection_dates.
    repeat (constructor; [repeat split; vm_compute; discriminate|]). constructor.
  - unfold Example.withdrawal_dates.
    repeat (constructor; [repeat split; vm_compute; discriminate|]). constructor.
Defined.

End ContractFacts.
(** ** The price model *)
Module PriceFacts.
Import Calendar CalendarFacts GasPriceAnalysis.

(** *** The search of [np.interp] *)

Lemma count_le_bound x xp : (count_le x xp <= length xp)%nat.
Proof.
  induction xp as [|a xp IH]; simpl; [lia|].
  destruct (a <=? x)%Z; lia.
Qed.

Lemma count_le_lookup x xp : forall k,
  (k < count_le x xp)%nat -> exists a, xp !! k = Some a /\ (a <= x)%Z.
Proof.
  induction xp as [|a xp IH]; simpl; intros k Hk; [lia|].
  destruct (Z.leb_spec a x); [|lia].
  destruct k as [|k]; simpl; [by exists a|]. apply IH. lia.
Qed.

Lemma count_le_next x xp a :
  xp !! count_le x xp = Some a -> (x < a)%Z.
Proof.
  induction xp as [|b xp IH]; simpl; [done|].
  destruct (Z.leb_spec b x); simpl; [done|]. by intros [= <-].
Qed.

Lemma sorted_lookup_lt (xp : list Z) :
  StronglySorted Z.lt xp ->
  forall i j a b, xp !! i = Some a -> xp !! j = Some b ->
                  (i < j)%nat -> (a < b)%Z.
Proof.
  induction 1 as [|h xp Hs IH Hall]; intros i j a b Hi Hj Hij; [done|].
  destruct j as [|j]; [lia|]. simpl in Hj.
  destruct i as [|i]; simpl in Hi.
  - injection Hi as <-. rewrite Forall_forall in Hall. apply Hall.
    by eapply list_elem_of_lookup_2.
  - eapply IH; [done..|lia].
Qed.

Lemma sorted_lookup_inj (xp : list Z) i j a :
  StronglySorted Z.lt xp -> xp !! i = Some a -> xp !! j = Some a -> i = j.
Proof.
  intros Hs Hi Hj.
  destruct (Nat.lt_trichotomy i j) as [Hlt|[->|Hlt]]; [|done|].
  - pose proof (sorted_lookup_lt xp Hs i j a a Hi Hj Hlt). lia.
  - pose proof (sorted_lookup_lt xp Hs j i a a Hj Hi Hlt). lia.
Qed.

(** The bisection keeps an entry not above the key just below [imin]
    and an entry above the key (or the end of the array) at [imax]. *)
Lemma bisect_spec key arr : forall fuel imin imax,
  (1 <= imin <= imax)%nat -> (imax <= length arr)%nat ->
  (imax - imin <= fuel)%nat ->
  (exists a, arr !! (imin - 1)%nat = Some a /\ (a <= key)%Z) ->
  (forall b, arr !! imax = Some b -> (key < b)%Z) ->
  (1 <= bisect fuel key arr imin imax)%nat /\
  (exists a, arr !! (bisect fuel key arr imin imax - 1)%nat = Some a
             /\ (a <= key)%Z) /\
  (forall b, arr !! bisect fuel key arr imin imax = Some b -> (key < b)%Z).
Proof.
  induction fuel as [|fuel IH]; intros imin imax Hle Hlen Hfuel Hlo Hhi.
  - simpl. assert (imin = imax) as -> by lia.
    split; [lia|]. split; done.
  - cbn [bisect]. destruct (Nat.ltb_spec imin imax) as [Hlt|Hge].
    + pose proof (Nat.div_mod_eq (imax - imin) 2) as Hdiv.
      pose proof (Nat.mod_upper_bound (imax - imin) 2 ltac:(lia)) as Hmod.
      set (imid := (imin + (imax - imin) / 2)%nat) in *.
      assert (imin <= imid < imax)%nat as [Hmid1 Hmid2] by (unfold imid; lia).
      destruct (lookup_lt_is_Some_2 arr imid ltac:(lia)) as [c Hc].
      rewrite (nth_lookup arr imid), Hc.
      change (default 0%Z (Some c)) with c.
      destruct (Z.leb_spec c key) as [Hck|Hck].
      * apply IH; [lia|lia|lia| |done].
        exists c. split; [|done]. by replace (S imid - 1)%nat with imid by lia.
      * apply IH; [lia|lia|lia|done|].
        intros b Hb. congruence.
    + assert (imin = imax) as -> by lia.
      split; [lia|]. split; done.
Qed.

(** For a key between the first and the last entry the search returns
    an index [k] whose entry is not above the key and whose successor,
    if there is one, is above it. *)
Lemma search_spec (x : Z) (xp : list Z) first last :
  xp !! O = Some first -> xp !! (length xp - 1)%nat = Some last ->
  (first <= x <= last)%Z ->
  exists k x0,
    search x xp = Z.of_nat k /\ xp !! k = Some x0 /\ (x0 <= x)%Z /\
    forall x1, xp !! S k = Some x1 -> (x < x1)%Z.
Proof.
  intros Hfirst Hlast [Hlo Hhi].
  unfold search, binary_search_with_guess. cbv zeta.
  rewrite (nth_lookup xp (length xp - 1)), Hlast, (nth_lookup xp 0), Hfirst.
  change (default 0%Z (Some last)) with last.
  change (default 0%Z (Some first)) with first.
  destruct (Z.ltb_spec last x) as [|_]; [lia|].
  destruct (Z.ltb_spec x first) as [|_]; [lia|].
  destruct (Nat.leb_spec (length xp) 4) as [Hshort|Hlong].
  - (* the linear scan *)
    unfold linear_search.
    destruct xp as [|a xp]; [done|]. simpl in Hfirst. injection Hfirst as ->.
    change (drop 1 (first :: xp)) with xp.
    replace (Z.of_nat (1 + count_le x xp) - 1)%Z
      with (Z.of_nat (count_le x xp)) by lia.
    destruct (count_le x xp) as [|c] eqn:Hc.
    + exists O, first. split; [done|]. split; [done|]. split; [done|].
      intros x1 Hx1. simpl in Hx1. apply (count_le_next x xp). by rewrite Hc.
    + destruct (count_le_lookup x xp c ltac:(lia)) as (a & Ha & Hale).
      exists (S c), a. split; [done|]. split; [done|]. split; [done|].
      intros x1 Hx1. simpl in Hx1. apply (count_le_next x xp). by rewrite Hc.
  - (* near the guess, then by bisection *)
    assert ((if (length xp - 3 <? 0)%nat then (length xp - 3)%nat else 0%nat)
            = 0%nat) as ->
      by (destruct (Nat.ltb_spec (length xp - 3) 0); [lia|done]).
    change (if (0 <? 1)%nat then 1%nat else 0%nat) with 1%nat.
    change (LIKELY_IN_CACHE_SIZE <? 1)%nat with false.
    change (1 - 1)%nat with 0%nat. change (1 + 1)%nat with 2%nat.
    change (1 + 2)%nat with 3%nat.
    change (1 + LIKELY_IN_CACHE_SIZE)%nat with 9%nat.
    change (length xp - LIKELY_IN_CACHE_SIZE - 1)%nat
      with (length xp - 8 - 1)%nat.
    destruct (lookup_lt_is_Some_2 xp 1 ltac:(lia)) as [a1 Ha1].
    destruct (lookup_lt_is_Some_2 xp 2 ltac:(lia)) as [a2 Ha2].
    destruct (lookup_lt_is_Some_2 xp 3 ltac:(lia)) as [a3 Ha3].
    rewrite (nth_lookup xp 1), Ha1, (nth_lookup xp 0), Hfirst,
      (nth_lookup xp 2), Ha2, (nth_lookup xp 3), Ha3.
    change (default 0%Z (Some a1)) with a1.
    change (default 0%Z (Some a2)) with a2.
    change (default 0%Z (Some a3)) with a3.
    change (default 0%Z (Some first)) with first.
    destruct (Z.ltb_spec x a1) as [H1|H1].
    { destruct (Z.ltb_spec x first) as [|_]; [lia|].
      exists O, first. split; [done|]. split; [done|]. split; [done|].
      intros x1 Hx1. congruence. }
    destruct (Z.ltb_spec x a2) as [H2|H2].
    { exists 1%nat, a1. split; [done|]. split; [done|]. split; [done|].
      intros x1 Hx1. congruence. }
    destruct (Z.ltb_spec x a3) as [H3|H3].
    { exists 2%nat, a2. split; [done|]. split; [done|]. split; [done|].
      intros x1 Hx1. congruence. }
    set (imax := if (1 <? length xp - 8 - 1)%nat && (x <? nth 9 xp 0)%Z
                 then 9%nat else length xp).
    assert ((3 <= imax <= length xp)%nat /\
            forall b, xp !! imax = Some b -> (x < b)%Z) as [Himax Hup].
    { unfold imax.
      destruct (Nat.ltb_spec 1 (length xp - 8 - 1)) as [Hfar|Hnear];
        cbn [andb].
      - destruct (Z.ltb_spec x (nth 9 xp 0%Z)) as [H9|H9].
        + split; [lia|]. intros b Hb.
          rewrite (nth_lookup xp), Hb in H9. done.
        + split; [lia|]. intros b Hb.
          apply lookup_lt_Some in Hb. lia.
      - split; [lia|]. intros b Hb.
        apply lookup_lt_Some in Hb. lia. }
    destruct (bisect_spec x xp (length xp) 3 imax)
      as (Hr1 & (a & Ha & Hale) & Hnext);
      [lia|lia|lia|by exists a2|done|].
    set (r := bisect _ _ _ _ _) in *.
    exists (r - 1)%nat, a. split; [lia|]. split; [done|]. split; [done|].
    intros x1 Hx1. apply Hnext. by replace r with (S (r - 1)) by lia.
Qed.

(** *** Interpolation *)

Section Generic.
Context {num : Type} `{Numeric num}.

(** On increasing sample points and a query between the first and the
    last of them, [np.interp] returns the sample itself at a sample
    point, and otherwise the value on the segment between the two
    neighbouring samples that enclose the query. *)
Lemma np_interp_in_range (x : Z) (xp : list Z) (fp : list num) first last :
  StronglySorted Z.lt xp ->
  length xp = length fp -> (2 <= length xp)%nat ->
  xp !! O = Some first -> xp !! (length xp - 1)%nat = Some last ->
  (first <= x <= last)%Z ->
  exists p,
    np_interp x xp fp = Ok p /\
    ((exists k, xp !! k = Some x /\ fp !! k = Some p) \/
     (exists i x0 x1 y0 y1,
        xp !! i = Some x0 /\ xp !! S i = Some x1 /\
        fp !! i = Some y0 /\ fp !! S i = Some y1 /\
        (x0 < x < x1)%Z /\ p = on_segment x0 x1 x y0 y1)) /\
    (forall k yk, xp !! k = Some x -> fp !! k = Some yk -> p = yk).
Proof.
  intros Hs Hlen H2 Hfirst Hlast Hx.
  destruct (search_spec x xp first last Hfirst Hlast Hx)
    as (k & x0 & Hk & Hx0 & Hle & Hnext).
  apply lookup_lt_Some in Hx0 as Hklt.
  unfold np_interp. cbv zeta. rewrite Hk.
  rewrite bool_decide_eq_false_2 by lia.
  rewrite bool_decide_eq_false_2 by (intros Hne; by apply Hne).
  destruct (Z.eqb_spec (Z.of_nat k) (-1)) as [|_]; [lia|].
  destruct (Z.eqb_spec (Z.of_nat k) (Z.of_nat (length xp))) as [|_]; [lia|].
  rewrite Nat2Z.id.
  destruct (lookup_lt_is_Some_2 fp k ltac:(lia)) as [y0 Hy0].
  rewrite (nth_lookup fp k), Hy0. change (default zero (Some y0)) with y0.
  destruct (Z.eqb_spec (Z.of_nat k) (Z.of_nat (length xp) - 1)) as [Hend|Hmid].
  - (* the query is the last sample point *)
    assert (k = (length xp - 1)%nat) as -> by lia.
    assert (x0 = last) as -> by congruence.
    assert (x = last) as -> by lia.
    exists y0. split; [done|]. split.
    + left. by exists (length xp - 1)%nat.
    + intros k' yk Hk' Hyk.
      assert (k' = (length xp - 1)%nat) as -> by (by eapply sorted_lookup_inj).
      congruence.
  - (* the query lies before the last sample point *)
    destruct (lookup_lt_is_Some_2 xp (S k) ltac:(lia)) as [x1 Hx1].
    destruct (lookup_lt_is_Some_2 fp (S k) ltac:(lia)) as [y1 Hy1].
    pose proof (Hnext x1 Hx1) as Hlt.
    rewrite (nth_lookup xp k), Hx0, (nth_lookup xp (S k)), Hx1,
      (nth_lookup fp (S k)), Hy1.
    change (default 0%Z (Some x0)) with x0.
    change (default 0%Z (Some x1)) with x1.
    change (default zero (Some y1)) with y1.
    destruct (Z.eqb_spec x0 x) as [->|Hne].
    + exists y0. split; [done|]. split.
      * left. by exists k.
      * intros k' yk Hk' Hyk.
        assert (k' = k) as -> by (by eapply sorted_lookup_inj).
        congruence.
    + eexists. split; [reflexivity|]. split.
      * right. exists k, x0, x1, y0, y1.
        repeat (split; [done || lia|]). reflexivity.
      * intros k' yk Hk' Hyk. exfalso.
        destruct (Nat.lt_trichotomy k' k) as [Hlt'|[->|Hlt']].
        -- pose proof (sorted_lookup_lt xp Hs k' k x x0 Hk' Hx0 Hlt'). lia.
        -- congruence.
        -- destruct (decide (k' = S k)) as [->|Hne']; [simplify_eq; lia|].
           pose proof (sorted_lookup_lt xp Hs (S k) k' x1 x Hx1 Hk'
                         ltac:(lia)). lia.
Qed.

(** *** The regression *)

Lemma fit_Ok (X y : list num) :
  X <> [] -> length X = length y -> forallb isfinite y = true ->
  fit X y = Ok (mkmodel (lstsq X y).1 (lstsq X y).2).
Proof.
  intros HX Hlen Hfin. unfold fit.
  rewrite bool_decide_eq_false_2 by (by destruct X).
  rewrite bool_decide_eq_false_2 by (intros Hne; by apply Hne).
  by rewrite Hfin.
Qed.


(** *** The two functions on a frame with the two series columns *)

Lemma estimate_price_eq (data : DataFrame num) (ds : list date)
    (ps : list num) d :
  columns data !! "Dates" = Some (Datetimes ds) ->
  columns data !! "Prices" = Some (Floats ps) ->
  estimate_price data d =
    let data' := setitem data "Date_ordinal" (Ints (toordinal <$> ds)) in
    if in_range ds d then
      p <~ np_interp (toordinal d) (toordinal <$> ds) ps ;; Ok (p, data')
    else
      model <~ fit (of_int <$> (toordinal <$> ds)) ps ;;
      Ok (decision_function model (of_int (toordinal d)), data').
Proof.
  intros Hd Hp. unfold estimate_price, getitem, setitem. rewrite Hd. simpl.
  rewrite lookup_insert_eq, lookup_insert_ne, Hp by done. simpl.
  destruct (in_range ds d); [reflexivity|].
  destruct (fit _ ps); reflexivity.
Qed.

Lemma extrapolate_future_prices_eq (data : DataFrame num) (ds : list date)
    (ps : list num) months :
  columns data !! "Dates" = Some (Datetimes ds) ->
  columns data !! "Prices" = Some (Floats ps) ->
  extrapolate_future_prices data months =
    let data' := setitem data "Time" (Ints (arange 0 (len data))) in
    model <~ fit (of_int <$> arange 0 (len data)) ps ;;
    future_prices <~ predict model (of_int <$> arange (len data) months) ;;
    last_date <~ or_raise ValueError (dates_max ds) ;;
    Ok (mkframe months
          (<["Dates" := Datetimes
               (date_range_periods (add_one_month last_date) months)]>
             (<["Prices" := Floats future_prices]> ∅)),
        data').
Proof.
  intros Hd Hp. unfold extrapolate_future_prices, getitem, setitem. simpl.
  rewrite lookup_insert_eq, !lookup_insert_ne, Hp, Hd by done. simpl.
  reflexivity.
Qed.

(** *** What the calls do to the frame they are given *)

Lemma estimate_price_frame (data : DataFrame num) d p data' :
  estimate_price data d = Ok (p, data') ->
  exists ds,
    columns data !! "Dates" = Some (Datetimes ds) /\
    data' = setitem data "Date_ordinal" (Ints (toordinal <$> ds)).
Proof.
  unfold estimate_price, getitem, bind, or_raise. intros Hr.
  destruct (columns data !! "Dates") as [[ds| |]|] eqn:Hd; simpl in Hr;
    try done.
  exists ds. split; [done|].
  repeat case_match; simplify_eq; done.
Qed.

Lemma extrapolate_future_prices_frame (data : DataFrame num) months
    future data' :
  extrapolate_future_prices data months = Ok (future, data') ->
  data' = setitem data "Time" (Ints (arange 0 (len data))).
Proof.
  unfold extrapolate_future_prices, getitem, bind, or_raise. intros Hr.
  repeat case_match; simplify_eq; done.
Qed.

(** *** What the calls read from it *)

Lemma estimate_price_reads (data other : DataFrame num) d :
  columns other !! "Dates" = columns data !! "Dates" ->
  columns other !! "Prices" = columns data !! "Prices" ->
  result_map fst (estimate_price other d)
  = result_map fst (estimate_price data d).
Proof.
  intros Hd Hp. unfold estimate_price, getitem, setitem. rewrite Hd.
  destruct (columns data !! "Dates") as [[ds| |]|]; simpl; try done.
  rewrite !lookup_insert_eq, !lookup_insert_ne, Hp by done. simpl.
  destruct (in_range ds d);
    (destruct (columns data !! "Prices") as [c|]; simpl; [|done]);
    (destruct (as_floats c) as [fp|]; simpl; [|done]).
  - destruct (np_interp _ _ fp); done.
  - destruct (fit _ fp); done.
Qed.

Lemma extrapolate_future_prices_reads (data other : DataFrame num) months :
  len other = len data ->
  columns other !! "Dates" = columns data !! "Dates" ->
  columns other !! "Prices" = columns data !! "Prices" ->
  result_map fst (extrapolate_future_prices other months)
  = result_map fst (extrapolate_future_prices data months).
Proof.
  intros Hlen Hd Hp. unfold extrapolate_future_prices, getitem, setitem. simpl.
  rewrite !lookup_insert_eq, !lookup_insert_ne, Hp, Hd, Hlen by done.
  simpl.
  destruct (columns data !! "Prices") as [c|]; simpl; [|done].
  destruct (as_floats c) as [fp|]; simpl; [|done].
  destruct (fit _ fp); simpl; [|done].
  destruct (predict _ _); simpl; [|done].
  destruct (columns data !! "Dates") as [c'|]; simpl; [|done].
  destruct (as_dates c'); simpl; [|done].
  destruct (dates_max _); done.
Qed.

End Generic.


Lemma in_range_true ds d lo hi :
  dates_min ds = Some lo -> dates_max ds = Some hi ->
  date_le lo d -> date_le d hi -> in_range ds d = true.
Proof.
  intros Hlo Hhi H1 H2. unfold in_range. rewrite Hlo, Hhi.
  apply andb_true_iff. done.
Qed.



(** *** Dates and their ordinals *)

Lemma toordinal_inj a b :
  valid_date a -> valid_date b -> toordinal a = toordinal b -> a = b.
Proof.
  intros Ha Hb Heq. apply (anti_symm date_le).
  - apply toordinal_le; [done..|lia].
  - apply toordinal_le; [done..|lia].
Qed.

Lemma date_lt_of_toordinal a b :
  valid_date a -> valid_date b -> toordinal a < toordinal b -> date_lt a b.
Proof.
  intros Ha Hb Hlt. apply date_lt_le_ne. split.
  - apply toordinal_le; [done..|lia].
  - intros ->. lia.
Qed.

(** The ordinals of the first and the last row of a sorted series
    enclose those of its earliest and latest date. *)
Lemma first_last_ordinals (ds : list date) lo hi :
  Forall valid_date ds -> StronglySorted date_lt ds ->
  dates_min ds = Some lo -> dates_max ds = Some hi ->
  exists dfirst dlast,
    ds !! O = Some dfirst /\ ds !! (length ds - 1)%nat = Some dlast /\
    (toordinal dfirst <= toordinal lo)%Z /\
    (toordinal hi <= toordinal dlast)%Z /\
    valid_date lo /\ valid_date hi.
Proof.
  intros Hv Hs Hlo Hhi.
  pose proof (toordinal_sorted ds Hv Hs) as Hxs.
  destruct (dates_min_spec _ _ Hlo) as [Hlo_in _].
  destruct (dates_max_spec _ _ Hhi) as [Hhi_in _].
  pose proof Hlo_in as [klo Hklo]%list_elem_of_lookup.
  pose proof Hhi_in as [khi Hkhi]%list_elem_of_lookup.
  assert (0 < length ds)%nat as Hpos by (apply lookup_lt_Some in Hklo; lia).
  destruct (lookup_lt_is_Some_2 ds O Hpos) as [dfirst Hfirst].
  destruct (lookup_lt_is_Some_2 ds (length ds - 1)%nat ltac:(lia))
    as [dlast Hlast].
  exists dfirst, dlast. split; [done|]. split; [done|].
  assert (forall k e, ds !! k = Some e ->
            (toordinal <$> ds) !! k = Some (toordinal e)) as Hx
    by (intros k e Hk; by rewrite list_lookup_fmap, Hk).
  rewrite Forall_forall in Hv. split; [|split; [|split; by apply Hv]].
  - destruct klo as [|klo]; [simplify_eq; lia|].
    pose proof (sorted_lookup_lt _ Hxs _ _ _ _ (Hx _ _ Hfirst) (Hx _ _ Hklo)
                  ltac:(lia)). lia.
  - apply lookup_lt_Some in Hkhi as Hlt.
    destruct (decide (khi = (length ds - 1)%nat)) as [->|Hne];
      [simplify_eq; lia|].
    pose proof (sorted_lookup_lt _ Hxs _ _ _ _ (Hx _ _ Hkhi) (Hx _ _ Hlast)
                  ltac:(lia)). lia.
Qed.

(** [np.interp] on the ordinals of a sorted series of calendar dates. *)
Lemma interp_on_series {num} `{Numeric num}
    (ds : list date) (ps : list num) (d lo hi : date) :
  length ds = length ps -> (2 <= length ds)%nat ->
  Forall valid_date ds -> valid_date d -> StronglySorted date_lt ds ->
  dates_min ds = Some lo -> dates_max ds = Some hi ->
  date_le lo d -> date_le d hi ->
  exists p,
    np_interp (toordinal d) (toordinal <$> ds) ps = Ok p /\
    ((exists k, ds !! k = Some d /\ ps !! k = Some p) \/
     (exists i d0 d1 p0 p1,
        ds !! i = Some d0 /\ ds !! S i = Some d1 /\
        ps !! i = Some p0 /\ ps !! S i = Some p1 /\
        date_lt d0 d /\ date_lt d d1 /\
        p = on_segment (toordinal d0) (toordinal d1) (toordinal d) p0 p1)) /\
    (forall k pk, ds !! k = Some d -> ps !! k = Some pk -> p = pk).
Proof.
  intros Hlen H2 Hv Hvd Hs Hlo Hhi Hlod Hdhi.
  pose proof (toordinal_sorted ds Hv Hs) as Hxs.
  assert (forall k e, ds !! k = Some e -> valid_date e) as Hvk.
  { intros k e Hk. rewrite Forall_forall in Hv. apply Hv.
    by eapply list_elem_of_lookup_2. }
  destruct (first_last_ordinals ds lo hi Hv Hs Hlo Hhi)
    as (dfirst & dlast & Hfirst & Hlast & Hfl & Hhl & Hvlo & Hvhi).
  assert (toordinal lo <= toordinal d)%Z as Hlod' by (by apply toordinal_le).
  assert (toordinal d <= toordinal hi)%Z as Hdhi' by (by apply toordinal_le).
  destruct (np_interp_in_range (toordinal d) (toordinal <$> ds) ps
              (toordinal dfirst) (toordinal dlast))
    as (p & Hp_eq & Hcases & Hexact);
    [done|by rewrite length_fmap|by rewrite length_fmap
    |by rewrite list_lookup_fmap, Hfirst
    |by rewrite length_fmap, list_lookup_fmap, Hlast|lia|].
  exists p. split; [done|]. split.
  - destruct Hcases as [(k & Hk & Hpk)
                       |(i & x0 & x1 & p0 & p1 & Hx0 & Hx1 & Hp0 & Hp1
                         & [Hlt0 Hlt1] & Hvalue)].
    + left. apply list_lookup_fmap_Some_1 in Hk as (d' & Hd' & Hk).
      exists k. split; [|done].
      by rewrite (toordinal_inj d d') by eauto.
    + right.
      apply list_lookup_fmap_Some_1 in Hx0 as (d0 & -> & Hd0).
      apply list_lookup_fmap_Some_1 in Hx1 as (d1 & -> & Hd1).
      exists i, d0, d1, p0, p1.
      repeat (split; [done|]).
      split; [apply date_lt_of_toordinal; eauto|].
      split; [apply date_lt_of_toordinal; eauto|]. done.
  - intros k pk Hk Hpk. apply (Hexact k pk); [|done].
    by rewrite list_lookup_fmap, Hk.
Qed.

Lemma estimate_in_range {num} `{Numeric num}
    (data : DataFrame num) (ds : list date) (ps : list num) d lo hi p :
  columns data !! "Dates" = Some (Datetimes ds) ->
  columns data !! "Prices" = Some (Floats ps) ->
  dates_min ds = Some lo -> dates_max ds = Some hi ->
  date_le lo d -> date_le d hi ->
  np_interp (toordinal d) (toordinal <$> ds) ps = Ok p ->
  estimate_price data d
  = Ok (p, setitem data "Date_ordinal" (Ints (toordinal <$> ds))).
Proof.
  intros Hd Hp Hlo Hhi H1 H2 Hi.
  rewrite (estimate_price_eq data ds ps d Hd Hp). cbv zeta.
  by rewrite (in_range_true ds d lo hi Hlo Hhi H1 H2), Hi.
Qed.

(** *** Month ends *)


(** *** Least squares in exact arithmetic *)

Lemma Qsum_nil : Qsum [] = 0%Q.
Proof. reflexivity. Qed.

Lemma Qsum_cons x l : Qsum (x :: l) = (x + Qsum l)%Q.
Proof. reflexivity. Qed.

#[local] Arguments Qsum : simpl never.

Section Sums.
Local Open Scope Q_scope.



(** The sums a straight-line fit is made of. *)
#[local] Abbreviation count X := (inject_Z (Z.of_nat (length X))).
#[local] Abbreviation Sxy X y := (Qsum (zip_with Qmult X y)).
#[local] Abbreviation Sxx X := (Qsum ((fun x => x * x) <$> X)).












End Sums.

(** *** Binary64 numbers are dyadic *)



(** *** Estimates outside the observed range *)



(** *** Extrapolation *)



(** *** What the calls do to the frame they are given *)

(** C9, as stated, fails: both functions write into the frame they are
    given.  [estimate_price] stores a [Date_ordinal] column and
    [extrapolate_future_prices] a [Time] column, new or in place of the
    caller's column of that name, so the frame is not the same after
    the call as before it. *)
Lemma price_functions_write_to_the_frame :
  let before : DataFrame float :=
    setitem Sample.float_data "Time" (Floats [0.5; 0.25; 0.125]%float) in
  columns before !! "Date_ordinal" = None /\
  columns before !! "Time" = Some (Floats [0.5; 0.25; 0.125]%float) /\
  forall solver,
    (exists p after,
       @estimate_price float _ (binary64 solver) before (mkdate 2023 2 14)
       = Ok (p, after) /\
       after <> before /\
       columns after !! "Date_ordinal" = Some (Ints [738551; 738579; 738610])) /\
    (exists future after,
       @extrapolate_future_prices float _ (binary64 solver) before 1
       = Ok (future, after) /\
       after <> before /\
       columns after !! "Time" = Some (Ints [0; 1; 2])).
Proof.
  intros before. split; [reflexivity|]. split; [reflexivity|].
  intros solver. split.
  - eexists _, _. split; [vm_compute; reflexivity|].
    split; [|reflexivity].
    intros Heq. apply (f_equal (fun f => columns f !! "Date_ordinal")) in Heq.
    vm_compute in Heq. discriminate Heq.
  - assert (columns before !! "Dates" = Some (Datetimes Sample.dates)) as Hd
      by reflexivity.
    assert (columns before !! "Prices" = Some (Floats Sample.float_prices))
      as Hp by reflexivity.
    rewrite (extrapolate_future_prices_eq (H0 := binary64 solver)
               before Sample.dates Sample.float_prices 1 Hd Hp).
    cbv zeta. rewrite (fit_Ok (H0 := binary64 solver)) by done.
    eexists _, _. split; [reflexivity|].
    split; [|reflexivity].
    intros Heq. apply (f_equal (fun f => columns f !! "Time")) in Heq.
    vm_compute in Heq. discriminate Heq.
Qed.

(** C9, amended.  What a call of [estimate_price] or [extrapolate_future_prices]
    that returns does to the frame it is given, and what it reads from
    it.  The frame is changed in one place: [estimate_price] stores the
    ordinals of the dates as column [Date_ordinal], and
    [extrapolate_future_prices] stores the row indices as column
    [Time], whether or not the frame had a column of that name.  The
    number of rows and every other column, [Dates] and [Prices] among
    them, are as before.  And what is returned is determined by the
    number of rows, the [Dates] column, the [Prices] column and the
    other argument: two frames that agree on these give the same
    result, or the same exception, whatever else they hold. *)
Theorem price_functions_leave_series_unchanged {num} `{Numeric num}
    (data : DataFrame num) (d : date) (months : nat) :
  (forall p data',
     estimate_price data d = Ok (p, data') ->
     (exists ds,
        columns data !! "Dates" = Some (Datetimes ds) /\
        data' = setitem data "Date_ordinal" (Ints (toordinal <$> ds))) /\
     len data' = len data /\
     (forall name, name <> "Date_ordinal" ->
                   columns data' !! name = columns data !! name) /\
     columns data' !! "Dates" = columns data !! "Dates" /\
     columns data' !! "Prices" = columns data !! "Prices") /\
  (forall future data',
     extrapolate_future_prices data months = Ok (future, data') ->
     data' = setitem data "Time" (Ints (arange 0 (len data))) /\
     len data' = len data /\
     (forall name, name <> "Time" ->
                   columns data' !! name = columns data !! name) /\
     columns data' !! "Dates" = columns data !! "Dates" /\
     columns data' !! "Prices" = columns data !! "Prices") /\
  (forall other : DataFrame num,
     len other = len data ->
     columns other !! "Dates" = columns data !! "Dates" ->
     columns other !! "Prices" = columns data !! "Prices" ->
     result_map fst (estimate_price other d)
       = result_map fst (estimate_price data d) /\
     result_map fst (extrapolate_future_prices other months)
       = result_map fst (extrapolate_future_prices data months)).
Proof.
  split; [|split].
  - intros p data' Hr.
    destruct (estimate_price_frame data d p data' Hr) as (ds & Hds & ->).
    split; [by exists ds|]. split; [done|].
    unfold setitem. cbn [columns].
    split; [intros name Hname; by rewrite lookup_insert_ne|].
    by rewrite !lookup_insert_ne.
  - intros future data' Hr.
    rewrite (extrapolate_future_prices_frame data months future data' Hr).
    split; [done|]. split; [done|].
    unfold setitem. cbn [columns].
    split; [intros name Hname; by rewrite lookup_insert_ne|].
    by rewrite !lookup_insert_ne.
  - intros other Hlen Hd Hp. split.
    + by apply estimate_price_reads.
    + by apply extrapolate_future_prices_reads.
Qed.

(** *** Estimates within the observed range *)

(** C2, as stated, fails in binary64: the value [np.interp] computes
    between two observations is a rounded one and can leave the
    interval between their prices.  With the prices 0 on 2023-01-01 and
    [2^-1070] on 2023-01-31 the slope [2^-1070 / 30] rounds up to the
    smallest positive float, [2^-1074], and the estimate for 2023-01-30
    is [29 * 2^-1074], above both observed prices. *)
Lemma interpolation_leaves_the_bracket_in_binary64 :
  let d := mkdate 2023 1 30 in
  StronglySorted date_lt Tiny.dates /\
  dates_min Tiny.dates = Some (mkdate 2023 1 1) /\
  dates_max Tiny.dates = Some (mkdate 2023 1 31) /\
  date_le (mkdate 2023 1 1) d /\ date_le d (mkdate 2023 1 31) /\
  forall solver,
    exists p data',
      @estimate_price float _ (binary64 solver) Tiny.data d = Ok (p, data') /\
      p = 0x1.dp-1070%float /\
      PrimFloat.ltb 0 p = true /\ PrimFloat.ltb 0x1p-1070 p = true /\
      exact_value p = Some (29 # 2 ^ 1074)%Q /\
      exact_value 0x1p-1070 = Some (16 # 2 ^ 1074)%Q.
Proof.
  intros d.
  split; [repeat constructor|]. split; [reflexivity|]. split; [reflexivity|].
  split; [reflexivity|]. split; [reflexivity|].
  intros solver. eexists _, _.
  split; [vm_compute; reflexivity|].
  repeat split; vm_compute; reflexivity.
Qed.

(** C2, amended.  For a series of at least two calendar dates in strictly
    ascending order and a query date between its first and last date
    (inclusive): when the query is an observed date (the first and the
    last included) [estimate_price] returns that observation's price
    itself; otherwise the query lies strictly between two neighbouring
    observations [(d0, p0)] and [(d1, p1)], and the estimate is the
    value [np.interp] computes on that segment, over ordinal day
    counts: [slope * (x - x0) + p0] with [slope = (p1 - p0) / (x1 - x0)],
    each operation performed in the arithmetic of the program (unless
    that value is NaN, when [np.interp] falls back on the other end of
    the segment). *)
Theorem estimate_within_range_interpolates {num} `{Numeric num}
    (data : DataFrame num) (ds : list date) (ps : list num) (d lo hi : date) :
  columns data !! "Dates" = Some (Datetimes ds) ->
  columns data !! "Prices" = Some (Floats ps) ->
  length ds = length ps -> (2 <= length ds)%nat ->
  Forall valid_date ds -> valid_date d ->
  StronglySorted date_lt ds ->
  dates_min ds = Some lo -> dates_max ds = Some hi ->
  date_le lo d -> date_le d hi ->
  exists p data',
    estimate_price data d = Ok (p, data') /\
    (forall k pk, ds !! k = Some d -> ps !! k = Some pk -> p = pk) /\
    ((exists k, ds !! k = Some d /\ ps !! k = Some p) \/
     (exists i d0 d1 p0 p1,
        ds !! i = Some d0 /\ ds !! S i = Some d1 /\
        ps !! i = Some p0 /\ ps !! S i = Some p1 /\
        date_lt d0 d /\ date_lt d d1 /\
        p = on_segment (toordinal d0) (toordinal d1) (toordinal d) p0 p1 /\
        let slope :=
          fdiv (sub p1 p0)
               (sub (of_int (toordinal d1)) (of_int (toordinal d0))) in
        let value :=
          add (mul slope (sub (of_int (toordinal d)) (of_int (toordinal d0))))
              p0 in
        (isnan value = false -> p = value))).
Proof.
  intros Hd Hp Hlen H2 Hv Hvd Hs Hlo Hhi Hlod Hdhi.
  destruct (interp_on_series ds ps d lo hi)
    as (p & Hp_eq & Hcases & Hexact); [done..|].
  exists p. eexists. split; [by eapply estimate_in_range|].
  split; [done|].
  destruct Hcases as [Hobs|(i & d0 & d1 & p0 & p1 & Hd0 & Hd1 & Hp0 & Hp1
                            & Hlt0 & Hlt1 & Hvalue)]; [by left|].
  right. exists i, d0, d1, p0, p1.
  repeat (split; [done|]).
  intros slope value Hnan. rewrite Hvalue. unfold on_segment.
  fold slope. fold value. by rewrite Hnan.
Qed.

(** *** The theorems at work on the sample series *)

Lemma sample_valid : Forall valid_date Sample.dates.
Proof.
  unfold Sample.dates.
  repeat (constructor; [repeat split; vm_compute; discriminate|]). constructor.
Defined.

Lemma sample_sorted : StronglySorted date_lt Sample.dates.
Proof. repeat constructor. Defined.

Lemma estimate_within_range_interpolates_witness :
  exists p data',
    estimate_price Sample.data (mkdate 2023 2 14) = Ok (p, data') /\
    (forall k pk, Sample.dates !! k = Some (mkdate 2023 2 14) ->
                  Sample.prices !! k = Some pk -> p = pk) /\
    ((exists k, Sample.dates !! k = Some (mkdate 2023 2 14)
                /\ Sample.prices !! k = Some p) \/
     (exists i d0 d1 p0 p1,
        Sample.dates !! i = Some d0 /\ Sample.dates !! S i = Some d1 /\
        Sample.prices !! i = Some p0 /\ Sample.prices !! S i = Some p1 /\
        date_lt d0 (mkdate 2023 2 14) /\ date_lt (mkdate 2023 2 14) d1 /\
        p = on_segment (toordinal d0) (toordinal d1)
              (toordinal (mkdate 2023 2 14)) p0 p1 /\
        let slope :=
          fdiv (sub p1 p0)
               (sub (of_int (toordinal d1)) (of_int (toordinal d0))) in
        let value :=
          add (mul slope (sub (of_int (toordinal (mkdate 2023 2 14)))
                              (of_int (toordinal d0))))
              p0 in
        (isnan value = false -> p = value))).
Proof.
  apply (estimate_within_range_interpolates Sample.data Sample.dates
           Sample.prices (mkdate 2023 2 14)
           (mkdate 2023 1 31) (mkdate 2023 3 31)).
  - reflexivity.
  - reflexivity.
  - reflexivity.
  - simpl. lia.
  - exact sample_valid.
  - repeat split; vm_compute; discriminate.
  - exact sample_sorted.
  - reflexivity.
  - reflexivity.
  - reflexivity.
  - reflexivity.
Defined.



End PriceFacts.

(** ** More on the storage-contract valuer *)
Module ContractExtras.
Import Calendar CalendarFacts PriceStorageContract ContractFacts.

Section Loop.
Context {num : Type} `{Num num}.
Variables (injection_dates withdrawal_dates : list date).
Variables (purchase_prices sale_prices : list num).
Variables (injection_rate withdrawal_rate max_storage : num).
Variables (storage_cost injection_withdrawal_cost transportation_cost : num).

#[local] Abbreviation inject' :=
  (inject injection_dates purchase_prices injection_rate max_storage
     injection_withdrawal_cost transportation_cost).
#[local] Abbreviation withdraw' :=
  (withdraw withdrawal_dates sale_prices withdrawal_rate
     injection_withdrawal_cost transportation_cost).
#[local] Abbreviation simulate' :=
  (simulate injection_dates withdrawal_dates purchase_prices sale_prices
     injection_rate withdrawal_rate max_storage
     injection_withdrawal_cost transportation_cost).

(** The three ways an injection step ends. *)
Lemma inject_cases d s :
  ((d ∉ injection_dates) /\ inject' d s = Ok s) \/
  (exists i, d ∈ injection_dates /\ index d injection_dates = Some i /\
     ((leb (volume s) (sub max_storage injection_rate) = false /\
       inject' d s = Ok (after_print s (Insufficient_storage_space d))) \/
      (leb (volume s) (sub max_storage injection_rate) = true /\
       exists p, purchase_prices !! i = Some p /\
         inject' d s = Ok (after_injection injection_rate
                             injection_withdrawal_cost transportation_cost s p)) \/
      (leb (volume s) (sub max_storage injection_rate) = true /\
       purchase_prices !! i = None /\ inject' d s = Raise IndexError))).
Proof.
  unfold inject. case_bool_decide as Hd; [|by left]. right.
  destruct (index_is_Some _ _ Hd) as [i Hi]. exists i. rewrite Hi. simpl.
  split; [done|]. split; [done|].
  destruct (leb _ _); [|by left]. right.
  destruct (purchase_prices !! i) as [p|]; simpl; [left|right]; eauto.
Qed.

Lemma withdraw_cases d s :
  ((d ∉ withdrawal_dates) /\ withdraw' d s = Ok s) \/
  (exists i, d ∈ withdrawal_dates /\ index d withdrawal_dates = Some i /\
     ((leb withdrawal_rate (volume s) = false /\
       withdraw' d s = Ok (after_print s (Insufficient_gas_stored d))) \/
      (leb withdrawal_rate (volume s) = true /\
       exists p, sale_prices !! i = Some p /\
         withdraw' d s = Ok (after_withdrawal withdrawal_rate
                               injection_withdrawal_cost transportation_cost s p)) \/
      (leb withdrawal_rate (volume s) = true /\
       sale_prices !! i = None /\ withdraw' d s = Raise IndexError))).
Proof.
  unfold withdraw. case_bool_decide as Hd; [|by left]. right.
  destruct (index_is_Some _ _ Hd) as [i Hi]. exists i. rewrite Hi. simpl.
  split; [done|]. split; [done|].
  destruct (leb _ _); [|by left]. right.
  destruct (sale_prices !! i) as [p|]; simpl; [left|right]; eauto.
Qed.

Lemma index_lt_length d (dates : list date) i :
  index d dates = Some i -> (i < length dates)%nat.
Proof. intros [Hi _]%index_Some. by eapply lookup_lt_Some. Qed.

Lemma simulate_only_IndexError dates : forall s e,
  simulate' dates s = Raise e -> e = IndexError.
Proof.
  induction dates as [|d rest IH]; intros s e; simpl; [done|]. unfold visit.
  destruct (inject_cases d s) as [[_ ->]|(i & _ & _ & [[_ ->]|[(_ & p & _ & ->)|(_ & _ & ->)]])];
    simpl; try (by intros [= <-]);
    match goal with
    | |- context [withdraw _ _ _ _ _ d ?s1] =>
        destruct (withdraw_cases d s1)
          as [[_ ->]|(j & _ & _ & [[_ ->]|[(_ & q & _ & ->)|(_ & _ & ->)]])]
    end; simpl; try (by intros [= <-]); apply IH.
Qed.

Lemma simulate_is_Ok dates :
  (length injection_dates <= length purchase_prices)%nat ->
  (length withdrawal_dates <= length sale_prices)%nat ->
  forall s, exists s', simulate' dates s = Ok s'.
Proof.
  intros Hpp Hsp. induction dates as [|d rest IH]; intros s; simpl; [by eexists|].
  unfold visit.
  assert (exists s1, inject' d s = Ok s1) as [s1 ->].
  { destruct (inject_cases d s)
      as [[_ ->]|(i & _ & Hi & [[_ ->]|[(_ & p & _ & ->)|(_ & Hnone & _)]])];
      try by eexists.
    apply index_lt_length in Hi. apply lookup_ge_None in Hnone. lia. }
  simpl.
  assert (exists s2, withdraw' d s1 = Ok s2) as [s2 ->].
  { destruct (withdraw_cases d s1)
      as [[_ ->]|(i & _ & Hi & [[_ ->]|[(_ & p & _ & ->)|(_ & Hnone & _)]])];
      try by eexists.
    apply index_lt_length in Hi. apply lookup_ge_None in Hnone. lia. }
  simpl. apply IH.
Qed.

End Loop.

(** X1.  With two non-empty schedules and a price for every scheduled
    position, [price_storage_contract] returns a value: the loop runs
    through without an exception and the month count is defined. *)
Theorem valuer_returns_a_value {num} `{Num num}
    (injection_dates withdrawal_dates : list date)
    (purchase_prices sale_prices : list num)
    (injection_rate withdrawal_rate max_storage : num)
    (storage_cost injection_withdrawal_cost transportation_cost : num) :
  injection_dates <> [] -> withdrawal_dates <> [] ->
  (length injection_dates <= length purchase_prices)%nat ->
  (length withdrawal_dates <= length sale_prices)%nat ->
  exists s v,
    simulate injection_dates withdrawal_dates purchase_prices sale_prices
      injection_rate withdrawal_rate max_storage
      injection_withdrawal_cost transportation_cost
      (all_dates injection_dates withdrawal_dates) initial = Ok s /\
    run injection_dates withdrawal_dates purchase_prices sale_prices
      injection_rate withdrawal_rate max_storage storage_cost
      injection_withdrawal_cost transportation_cost = Ok (s, v) /\
    price_storage_contract injection_dates withdrawal_dates
      purchase_prices sale_prices injection_rate withdrawal_rate
      max_storage storage_cost injection_withdrawal_cost
      transportation_cost = Ok v.
Proof.
  intros Hi Hw Hpp Hsp.
  destruct (simulate_is_Ok injection_dates withdrawal_dates purchase_prices
              sale_prices injection_rate withdrawal_rate max_storage
              injection_withdrawal_cost transportation_cost
              (all_dates injection_dates withdrawal_dates) Hpp Hsp initial)
    as [s Hs].
  destruct (dates_min_is_Some _ Hi) as [lo Hlo].
  destruct (dates_max_is_Some _ Hw) as [hi Hhi].
  exists s. eexists. split; [done|].
  unfold price_storage_contract, run, total_storage_cost, storage_duration.
  rewrite Hs, Hlo, Hhi. simpl. done.
Qed.

Lemma valuer_returns_a_value_witness :
  exists s v,
    simulate Example.injection_dates Example.withdrawal_dates
      Example.purchase_prices Example.sale_prices
      Example.injection_rate Example.withdrawal_rate Example.max_storage
      Example.injection_withdrawal_cost Example.transportation_cost
      (all_dates Example.injection_dates Example.withdrawal_dates) initial
    = Ok s /\
    run Example.injection_dates Example.withdrawal_dates
      Example.purchase_prices Example.sale_prices
      Example.injection_rate Example.withdrawal_rate Example.max_storage
      Example.storage_cost Example.injection_withdrawal_cost
      Example.transportation_cost = Ok (s, v) /\
    price_storage_contract Example.injection_dates Example.withdrawal_dates
      Example.purchase_prices Example.sale_prices
      Example.injection_rate Example.withdrawal_rate Example.max_storage
      Example.storage_cost Example.injection_withdrawal_cost
      Example.transportation_cost = Ok v.
Proof.
  apply (valuer_returns_a_value
           Example.injection_dates Example.withdrawal_dates
           Example.purchase_prices Example.sale_prices
           Example.injection_rate Example.withdrawal_rate
           Example.max_storage Example.storage_cost
           Example.injection_withdrawal_cost Example.transportation_cost).
  - discriminate.
  - discriminate.
  - simpl. lia.
  - simpl. lia.
Defined.

(** X2.  The ways [price_storage_contract] can end.  It returns a value
    only when both schedules are non-empty.  It raises [ValueError]
    exactly when the event loop ran through and a schedule is empty, and
    [IndexError] exactly when the loop met a committed event without a
    price; it raises nothing else. *)
Theorem valuer_failure_modes {num} `{Num num}
    (injection_dates withdrawal_dates : list date)
    (purchase_prices sale_prices : list num)
    (injection_rate withdrawal_rate max_storage : num)
    (storage_cost injection_withdrawal_cost transportation_cost : num) :
  let outcome :=
    price_storage_contract injection_dates withdrawal_dates
      purchase_prices sale_prices injection_rate withdrawal_rate
      max_storage storage_cost injection_withdrawal_cost
      transportation_cost in
  let loop :=
    simulate injection_dates withdrawal_dates purchase_prices sale_prices
      injection_rate withdrawal_rate max_storage
      injection_withdrawal_cost transportation_cost
      (all_dates injection_dates withdrawal_dates) initial in
  ((exists v, outcome = Ok v) <->
   (exists s, loop = Ok s) /\ injection_dates <> [] /\ withdrawal_dates <> []) /\
  (outcome = Raise ValueError <->
   (exists s, loop = Ok s) /\ (injection_dates = [] \/ withdrawal_dates = [])) /\
  (outcome = Raise IndexError <-> loop = Raise IndexError) /\
  (forall e, outcome = Raise e -> e = ValueError \/ e = IndexError).
Proof.
  intros outcome loop. unfold outcome, loop.
  unfold price_storage_contract, run, total_storage_cost, storage_duration.
  destruct (simulate _ _ _ _ _ _ _ _ _ _ _) as [s|e] eqn:Hloop; simpl.
  - destruct injection_dates as [|d0 inj]; simpl;
      [|destruct withdrawal_dates as [|w0 wd]; simpl];
      repeat split; intros; destruct_and?; destruct_or?;
      repeat match goal with Hx : exists _, _ |- _ => destruct Hx end;
      simplify_eq; eauto.
  - apply simulate_only_IndexError in Hloop as ->.
    repeat split; intros; destruct_and?; destruct_or?;
      repeat match goal with Hx : exists _, _ |- _ => destruct Hx end;
      simplify_eq; eauto.
Qed.

Section Prices.
Context {num : Type} `{Num num}.
Variables (injection_dates withdrawal_dates : list date).
Variables (injection_rate withdrawal_rate max_storage : num).
Variables (storage_cost injection_withdrawal_cost transportation_cost : num).

(** The loop reads the price lists only at first-occurrence positions. *)
Lemma simulate_ext (pp1 pp2 sp1 sp2 : list num) dates :
  (forall d i, index d injection_dates = Some i -> pp1 !! i = pp2 !! i) ->
  (forall d i, index d withdrawal_dates = Some i -> sp1 !! i = sp2 !! i) ->
  forall s,
    simulate injection_dates withdrawal_dates pp1 sp1
      injection_rate withdrawal_rate max_storage
      injection_withdrawal_cost transportation_cost dates s
    = simulate injection_dates withdrawal_dates pp2 sp2
        injection_rate withdrawal_rate max_storage
        injection_withdrawal_cost transportation_cost dates s.
Proof.
  intros Hpp Hsp. induction dates as [|d rest IH]; intros s; simpl; [done|].
  assert (forall s0,
    inject injection_dates pp1 injection_rate max_storage
      injection_withdrawal_cost transportation_cost d s0
    = inject injection_dates pp2 injection_rate max_storage
        injection_withdrawal_cost transportation_cost d s0) as Hinj.
  { intros s0. unfold inject. case_bool_decide; [|done].
    destruct (index d injection_dates) as [i|] eqn:Hi; simpl; [|done].
    by rewrite (Hpp d i Hi). }
  assert (forall s0,
    withdraw withdrawal_dates sp1 withdrawal_rate
      injection_withdrawal_cost transportation_cost d s0
    = withdraw withdrawal_dates sp2 withdrawal_rate
        injection_withdrawal_cost transportation_cost d s0) as Hwd.
  { intros s0. unfold withdraw. case_bool_decide; [|done].
    destruct (index d withdrawal_dates) as [i|] eqn:Hi; simpl; [|done].
    by rewrite (Hsp d i Hi). }
  unfold visit. rewrite Hinj.
  destruct (inject _ pp2 _ _ _ _ d s) as [s1|]; simpl; [|done].
  rewrite Hwd. destruct (withdraw _ sp2 _ _ _ d s1) as [s2|]; simpl; [|done].
  apply IH.
Qed.

Lemma later_occurrence_not_first (dates : list date) d i j :
  dates !! j = Some d -> index d dates = Some i -> i <> j ->
  forall d' i', index d' dates = Some i' -> i' <> j.
Proof.
  intros Hj Hi Hne d' i' Hi' ->.
  pose proof Hi' as [Hat _]%index_Some. simplify_eq.
Qed.

End Prices.

(** X3.  A price listed at a later occurrence of a date that appears
    several times in its schedule is never read: replacing it by any
    other number changes neither the final state of the loop nor the
    value returned. *)
Theorem later_duplicate_price_is_unused {num} `{Num num}
    (injection_dates withdrawal_dates : list date)
    (purchase_prices sale_prices : list num)
    (injection_rate withdrawal_rate max_storage : num)
    (storage_cost injection_withdrawal_cost transportation_cost : num)
    (d : date) (i j : nat) (other : num) :
  i <> j ->
  (injection_dates !! j = Some d -> index d injection_dates = Some i ->
   run injection_dates withdrawal_dates (<[j := other]> purchase_prices)
     sale_prices injection_rate withdrawal_rate max_storage storage_cost
     injection_withdrawal_cost transportation_cost
   = run injection_dates withdrawal_dates purchase_prices sale_prices
       injection_rate withdrawal_rate max_storage storage_cost
       injection_withdrawal_cost transportation_cost) /\
  (withdrawal_dates !! j = Some d -> index d withdrawal_dates = Some i ->
   run injection_dates withdrawal_dates purchase_prices
     (<[j := other]> sale_prices) injection_rate withdrawal_rate
     max_storage storage_cost injection_withdrawal_cost transportation_cost
   = run injection_dates withdrawal_dates purchase_prices sale_prices
       injection_rate withdrawal_rate max_storage storage_cost
       injection_withdrawal_cost transportation_cost).
Proof.
  intros Hne. split; intros Hj Hi; unfold run.
  - rewrite (simulate_ext injection_dates withdrawal_dates injection_rate
               withdrawal_rate max_storage injection_withdrawal_cost
               transportation_cost (<[j := other]> purchase_prices)
               purchase_prices sale_prices sale_prices); [done| |done].
    intros d' i' Hi'. apply list_lookup_insert_ne. intros <-.
    by eapply (later_occurrence_not_first injection_dates d i j).
  - rewrite (simulate_ext injection_dates withdrawal_dates injection_rate
               withdrawal_rate max_storage injection_withdrawal_cost
               transportation_cost purchase_prices purchase_prices
               (<[j := other]> sale_prices) sale_prices); [done|done|].
    intros d' i' Hi'. apply list_lookup_insert_ne. intros <-.
    by eapply (later_occurrence_not_first withdrawal_dates d i j).
Qed.

Lemma later_duplicate_price_is_unused_witness :
  run [mkdate 2023 5 1; mkdate 2023 5 1] [mkdate 2023 6 1]
    (<[1%nat := 9%Z]> [3; 4]%Z) [5]%Z 1%Z 1%Z 2%Z 0%Z 0%Z 0%Z
  = run [mkdate 2023 5 1; mkdate 2023 5 1] [mkdate 2023 6 1]
      [3; 4]%Z [5]%Z 1%Z 1%Z 2%Z 0%Z 0%Z 0%Z.
Proof.
  apply (later_duplicate_price_is_unused
           [mkdate 2023 5 1; mkdate 2023 5 1] [mkdate 2023 6 1]
           [3; 4]%Z [5]%Z 1%Z 1%Z 2%Z 0%Z 0%Z 0%Z
           (mkdate 2023 5 1) 0%nat 1%nat 9%Z).
  - lia.
  - reflexivity.
  - reflexivity.
Defined.

Section Accounting.
Context {num : Type} `{Num num}.
Variables (injection_dates withdrawal_dates : list date).
Variables (purchase_prices sale_prices : list num).
Variables (injection_rate withdrawal_rate max_storage : num).
Variables (injection_withdrawal_cost transportation_cost : num).

#[local] Abbreviation tallied :=
  (tally injection_withdrawal_cost transportation_cost).

Lemma tally_step d s s1 s2 n m :
  tallied n m s ->
  inject injection_dates purchase_prices injection_rate max_storage
    injection_withdrawal_cost transportation_cost d s = Ok s1 ->
  withdraw withdrawal_dates sale_prices withdrawal_rate
    injection_withdrawal_cost transportation_cost d s1 = Ok s2 ->
  exists n' m',
    tallied n' m' s2 /\
    (n' + m' = n + m
               + (if bool_decide (d ∈ injection_dates) then 1 else 0)
               + (if bool_decide (d ∈ withdrawal_dates) then 1 else 0))%nat.
Proof.
  intros (Hiw & Htc & Hpr) H1 H2.
  assert (exists n1 m1, tallied n1 m1 s1 /\
            (n1 + m1 = n + m
                       + (if bool_decide (d ∈ injection_dates) then 1 else 0))%nat)
    as (n1 & m1 & (Hiw1 & Htc1 & Hpr1) & Hsum1).
  { destruct (inject_cases injection_dates purchase_prices injection_rate
                max_storage injection_withdrawal_cost transportation_cost d s)
      as [[Hd Heq]|(i & Hd & _ & [[_ Heq]|[(_ & p & _ & Heq)|(_ & _ & Heq)]])];
      rewrite Heq in H1; [injection H1 as <-..|discriminate].
    - exists n, m. rewrite bool_decide_eq_false_2 by done.
      split; [done|lia].
    - exists n, (S m). rewrite bool_decide_eq_true_2 by done. split; [|lia].
      repeat split; simpl; [done..|]. rewrite length_app. simpl. lia.
    - exists (S n), m. rewrite bool_decide_eq_true_2 by done. split; [|lia].
      repeat split; simpl; [by rewrite Hiw|by rewrite Htc|done]. }
  destruct (withdraw_cases withdrawal_dates sale_prices withdrawal_rate
              injection_withdrawal_cost transportation_cost d s1)
    as [[Hd Heq]|(i & Hd & _ & [[_ Heq]|[(_ & p & _ & Heq)|(_ & _ & Heq)]])];
    rewrite Heq in H2; [injection H2 as <-..|discriminate].
  - exists n1, (length (printed s1)).
    rewrite (bool_decide_eq_false_2 (d ∈ withdrawal_dates)) by done.
    split; [done|lia].
  - exists n1, (S (length (printed s1))).
    rewrite (bool_decide_eq_true_2 (d ∈ withdrawal_dates)) by done.
    split; [|lia].
    repeat split; simpl; [done..|]. rewrite length_app. simpl. lia.
  - exists (S n1), (length (printed s1)).
    rewrite (bool_decide_eq_true_2 (d ∈ withdrawal_dates)) by done.
    split; [|lia].
    repeat split; simpl; [by rewrite Hiw1|by rewrite Htc1].
Qed.

Lemma length_filter_cons {A} (P : A -> Prop) `{forall x, Decision (P x)}
    (x : A) (l : list A) :
  length (filter P (x :: l))
  = ((if bool_decide (P x) then 1 else 0) + length (filter P l))%nat.
Proof.
  rewrite filter_cons. destruct (decide (P x)) as [Hx|Hx].
  - by rewrite (bool_decide_eq_true_2 _ Hx).
  - by rewrite (bool_decide_eq_false_2 _ Hx).
Qed.

Lemma tally_simulate dates : forall s s' n m,
  tallied n m s ->
  simulate injection_dates withdrawal_dates purchase_prices sale_prices
    injection_rate withdrawal_rate max_storage
    injection_withdrawal_cost transportation_cost dates s = Ok s' ->
  exists n' m',
    tallied n' m' s' /\
    (n' + m' = n + m
               + length (filter (fun d => d ∈ injection_dates) dates)
               + length (filter (fun d => d ∈ withdrawal_dates) dates))%nat.
Proof.
  induction dates as [|d rest IH]; intros s s' n m Ht; simpl.
  - intros [= <-]. exists n, m. split; [done|lia].
  - unfold visit.
    destruct (inject _ _ _ _ _ _ d s) as [s1|] eqn:E1; simpl; [|done].
    destruct (withdraw _ _ _ _ _ d s1) as [s2|] eqn:E2; simpl; [|done].
    intros Hrest.
    destruct (tally_step d s s1 s2 n m Ht E1 E2) as (n1 & m1 & Ht1 & Hsum1).
    destruct (IH s2 s' n1 m1 Ht1 Hrest) as (n2 & m2 & Ht2 & Hsum2).
    exists n2, m2. split; [done|].
    rewrite !length_filter_cons. lia.
Qed.

Lemma messages_simulate dates : forall s s',
  simulate injection_dates withdrawal_dates purchase_prices sale_prices
    injection_rate withdrawal_rate max_storage
    injection_withdrawal_cost transportation_cost dates s = Ok s' ->
  forall m, m ∈ printed s' ->
            m ∈ printed s \/
            message_about injection_dates withdrawal_dates dates m.
Proof.
  induction dates as [|d rest IH]; intros s s'; simpl.
  - intros [= <-] m Hm. by left.
  - unfold visit.
    destruct (inject _ _ _ _ _ _ d s) as [s1|] eqn:E1; simpl; [|done].
    destruct (withdraw _ _ _ _ _ d s1) as [s2|] eqn:E2; simpl; [|done].
    intros Hrest m Hm.
    assert (forall m0, m0 ∈ printed s1 ->
              m0 ∈ printed s \/
              message_about injection_dates withdrawal_dates (d :: rest) m0)
      as H1.
    { destruct (inject_cases injection_dates purchase_prices injection_rate
                  max_storage injection_withdrawal_cost transportation_cost d s)
        as [[Hd Heq]|(i & Hd & _ & [[_ Heq]|[(_ & p & _ & Heq)|(_ & _ & Heq)]])];
        rewrite Heq in E1; [injection E1 as <-..|discriminate];
        intros m0 Hm0; simpl in Hm0; [by left| |by left].
      apply elem_of_app in Hm0 as [Hm0|Hm0]; [by left|].
      apply list_elem_of_singleton in Hm0 as ->. right. simpl.
      split; [by left|done]. }
    assert (forall m0, m0 ∈ printed s2 ->
              m0 ∈ printed s1 \/
              message_about injection_dates withdrawal_dates (d :: rest) m0)
      as H2.
    { destruct (withdraw_cases withdrawal_dates sale_prices withdrawal_rate
                  injection_withdrawal_cost transportation_cost d s1)
        as [[Hd Heq]|(i & Hd & _ & [[_ Heq]|[(_ & p & _ & Heq)|(_ & _ & Heq)]])];
        rewrite Heq in E2; [injection E2 as <-..|discriminate];
        intros m0 Hm0; simpl in Hm0; [by left| |by left].
      apply elem_of_app in Hm0 as [Hm0|Hm0]; [by left|].
      apply list_elem_of_singleton in Hm0 as ->. right. simpl.
      split; [by left|done]. }
    destruct (IH s2 s' Hrest m Hm) as [Hm2|Habout].
    + destruct (H2 m Hm2) as [Hm1|?]; [|by right]. by apply H1.
    + right. destruct m as [d0|d0]; simpl in *;
        (split; [right|]; apply Habout).
Qed.

End Accounting.

(** X4.  The two per-event costs move in lockstep: when the loop over
    [dates] ends, the operation cost is [injection_withdrawal_cost] added
    [k] times and the transport cost is [transportation_cost] added the
    same [k] times, [k] being the number of committed events.  Every
    scheduled event of a visited date is either committed or reported:
    [k] plus the number of messages is the number of visited dates in the
    injection schedule plus the number in the withdrawal schedule. *)
Theorem per_event_costs_in_lockstep {num} `{Num num}
    (injection_dates withdrawal_dates : list date)
    (purchase_prices sale_prices : list num)
    (injection_rate withdrawal_rate max_storage : num)
    (injection_withdrawal_cost transportation_cost : num)
    (dates : list date) (s : state) :
  simulate injection_dates withdrawal_dates purchase_prices sale_prices
    injection_rate withdrawal_rate max_storage
    injection_withdrawal_cost transportation_cost dates initial = Ok s ->
  exists k : nat,
    total_injection_withdrawal_cost s
      = accumulated k injection_withdrawal_cost /\
    total_transportation_cost s = accumulated k transportation_cost /\
    (k + length (printed s)
     = length (filter (fun d => d ∈ injection_dates) dates)
       + length (filter (fun d => d ∈ withdrawal_dates) dates))%nat.
Proof.
  intros Hs.
  destruct (tally_simulate injection_dates withdrawal_dates purchase_prices
              sale_prices injection_rate withdrawal_rate max_storage
              injection_withdrawal_cost transportation_cost
              dates initial s 0 0) as (k & m & (Hiw & Htc & Hm) & Hsum);
    [done|done|].
  exists k. repeat split; [done..|]. lia.
Qed.

Lemma per_event_costs_in_lockstep_witness :
  exists s,
    simulate [mkdate 2023 5 1; mkdate 2023 5 2] [mkdate 2023 4 30]
      [3; 4]%Z [5]%Z 1%Z 1%Z 1%Z 7%Z 2%Z
      [mkdate 2023 4 30; mkdate 2023 5 1; mkdate 2023 5 2] initial = Ok s /\
    exists k : nat,
      total_injection_withdrawal_cost s = accumulated k 7%Z /\
      total_transportation_cost s = accumulated k 2%Z /\
      (k + length (printed s)
       = length (filter (fun d => d ∈ [mkdate 2023 5 1; mkdate 2023 5 2])
                   [mkdate 2023 4 30; mkdate 2023 5 1; mkdate 2023 5 2])
         + length (filter (fun d => d ∈ [mkdate 2023 4 30])
                     [mkdate 2023 4 30; mkdate 2023 5 1; mkdate 2023 5 2]))%nat.
Proof.
  eexists. split; [vm_compute; reflexivity|].
  apply (per_event_costs_in_lockstep
           [mkdate 2023 5 1; mkdate 2023 5 2] [mkdate 2023 4 30]
           [3; 4]%Z [5]%Z 1%Z 1%Z 1%Z 7%Z 2%Z
           [mkdate 2023 4 30; mkdate 2023 5 1; mkdate 2023 5 2]).
  vm_compute. reflexivity.
Defined.

(** X5.  Every message the loop prints is about a date it visited:
    "insufficient storage space" names a visited date of the injection
    schedule, "insufficient gas stored" a visited date of the withdrawal
    schedule. *)
Theorem messages_name_scheduled_dates {num} `{Num num}
    (injection_dates withdrawal_dates : list date)
    (purchase_prices sale_prices : list num)
    (injection_rate withdrawal_rate max_storage : num)
    (injection_withdrawal_cost transportation_cost : num)
    (dates : list date) (s : state) :
  simulate injection_dates withdrawal_dates purchase_prices sale_prices
    injection_rate withdrawal_rate max_storage
    injection_withdrawal_cost transportation_cost dates initial = Ok s ->
  forall d,
    (Insufficient_storage_space d ∈ printed s ->
     d ∈ dates /\ d ∈ injection_dates) /\
    (Insufficient_gas_stored d ∈ printed s ->
     d ∈ dates /\ d ∈ withdrawal_dates).
Proof.
  intros Hs d.
  pose proof (messages_simulate injection_dates withdrawal_dates
                purchase_prices sale_prices injection_rate withdrawal_rate
                max_storage injection_withdrawal_cost transportation_cost
                dates initial s Hs) as Hm.
  split; intros Hin; destruct (Hm _ Hin) as [Hnil|Habout]; try done;
    simpl in Hnil; by apply elem_of_nil in Hnil.
Qed.

Lemma messages_name_scheduled_dates_witness :
  exists s,
    simulate [mkdate 2023 5 1; mkdate 2023 5 2] [mkdate 2023 4 30]
      [3; 4]%Z [5]%Z 1%Z 1%Z 1%Z 7%Z 2%Z
      [mkdate 2023 4 30; mkdate 2023 5 1; mkdate 2023 5 2] initial = Ok s /\
    printed s = [Insufficient_gas_stored (mkdate 2023 4 30);
                 Insufficient_storage_space (mkdate 2023 5 2)] /\
    forall d,
      (Insufficient_storage_space d ∈ printed s ->
       d ∈ [mkdate 2023 4 30; mkdate 2023 5 1; mkdate 2023 5 2] /\
       d ∈ [mkdate 2023 5 1; mkdate 2023 5 2]) /\
      (Insufficient_gas_stored d ∈ printed s ->
       d ∈ [mkdate 2023 4 30; mkdate 2023 5 1; mkdate 2023 5 2] /\
       d ∈ [mkdate 2023 4 30]).
Proof.
  eexists. split; [vm_compute; reflexivity|]. split; [reflexivity|].
  apply (messages_name_scheduled_dates
           [mkdate 2023 5 1; mkdate 2023 5 2] [mkdate 2023 4 30]
           [3; 4]%Z [5]%Z 1%Z 1%Z 1%Z 7%Z 2%Z
           [mkdate 2023 4 30; mkdate 2023 5 1; mkdate 2023 5 2]).
  vm_compute. reflexivity.
Defined.

Lemma length_month_ends_until fuel : forall cur stop,
  is_month_end cur = true -> month_ok cur -> valid_date stop ->
  (12 * year stop + month stop - (12 * year cur + month cur) + 1
     <= Z.of_nat fuel)%Z ->
  length (month_ends_until fuel cur stop)
  = Z.to_nat (12 * year stop + month stop - (12 * year cur + month cur)
              + (if is_month_end stop then 1 else 0)).
Proof.
  induction fuel as [|f IH]; intros cur stop Hc Hmc Hvs Hfuel; simpl.
  - destruct (is_month_end stop); lia.
  - pose proof Hvs as (_ & Hms & Hds).
    unfold is_month_end in Hc. apply Z.eqb_eq in Hc.
    assert (year cur = year stop -> month cur = month stop ->
            days_in_month (year cur) (month cur)
            = days_in_month (year stop) (month stop)) as Hdim
      by (intros -> ->; done).
    unfold month_ok in Hmc.
    destruct (date_leb cur stop) eqn:Hle.
    + apply date_leb_iff in Hle. simpl.
      rewrite IH; [|apply is_month_end_next|by apply month_ok_next|done|
                   rewrite month_index_next; lia].
      rewrite month_index_next. unfold is_month_end.
      destruct (Z.eqb_spec (day stop) (days_in_month (year stop) (month stop)));
        lia.
    + apply date_leb_false_iff, date_ltb_iff in Hle. simpl.
      unfold is_month_end.
      destruct (Z.eqb_spec (day stop) (days_in_month (year stop) (month stop)));
        lia.
Qed.

(** X6.  The number of storage months charged has a closed form: the
    number of calendar months from the month of the earliest injection to
    the month of the latest withdrawal, plus one when the latest
    withdrawal falls on the last day of its month (and zero when that is
    negative).  In particular gas injected and withdrawn within one
    calendar month, the last day excluded, is stored for free. *)
Theorem storage_duration_closed_form
    (injection_dates withdrawal_dates : list date)
    (first_injection last_withdrawal : date) :
  dates_min injection_dates = Some first_injection ->
  dates_max withdrawal_dates = Some last_withdrawal ->
  valid_date first_injection -> valid_date last_withdrawal ->
  storage_duration injection_dates withdrawal_dates
  = Ok (Z.to_nat
          (12 * (year last_withdrawal - year first_injection)
           + (month last_withdrawal - month first_injection)
           + (if is_month_end last_withdrawal then 1 else 0))).
Proof.
  intros Hlo Hhi Hvlo Hvhi. unfold storage_duration. rewrite Hlo, Hhi. simpl.
  f_equal. unfold date_range.
  destruct (rollforward_year_month first_injection) as [Hy Hm].
  rewrite length_month_ends_until.
  - rewrite Hy, Hm. f_equal. lia.
  - apply is_month_end_rollforward.
  - unfold month_ok. rewrite Hm. apply Hvlo.
  - done.
  - rewrite Hy, Hm. unfold months_spanned. lia.
Qed.

Lemma storage_duration_closed_form_witness :
  storage_duration Example.injection_dates Example.withdrawal_dates
  = Ok (Z.to_nat
          (12 * (year (mkdate 2023 11 3) - year (mkdate 2023 5 1))
           + (month (mkdate 2023 11 3) - month (mkdate 2023 5 1))
           + (if is_month_end (mkdate 2023 11 3) then 1 else 0))).
Proof.
  apply (storage_duration_closed_form
           Example.injection_dates Example.withdrawal_dates
           (mkdate 2023 5 1) (mkdate 2023 11 3)).
  - reflexivity.
  - reflexivity.
  - repeat split; vm_compute; discriminate.
  - repeat split; vm_compute; discriminate.
Defined.

End ContractExtras.
(** ** More on the price model *)
Module PriceExtras.
Import Calendar CalendarFacts GasPriceAnalysis PriceFacts.

#[local] Arguments Qsum : simpl never.

(** *** Failures *)

(** X7.  What the two price functions do without data.  A frame without
    a [Dates] column makes [estimate_price] raise [KeyError], and one
    without a [Prices] column makes [extrapolate_future_prices] raise
    [KeyError].  On a series with no rows both raise [ValueError]: every
    query date is out of range, and the regression refuses to fit zero
    samples. *)
Theorem price_functions_without_data {num} `{Numeric num}
    (data : DataFrame num) (ps : list num) (d : date) (months : nat) :
  (columns data !! "Dates" = None ->
   estimate_price data d = Raise KeyError) /\
  (columns data !! "Prices" = None ->
   extrapolate_future_prices data months = Raise KeyError) /\
  (columns data !! "Dates" = Some (Datetimes []) ->
   columns data !! "Prices" = Some (Floats ps) ->
   estimate_price data d = Raise ValueError) /\
  (len data = O ->
   columns data !! "Prices" = Some (Floats ps) ->
   extrapolate_future_prices data months = Raise ValueError).
Proof.
  split; [|split; [|split]].
  - intros Hd. unfold estimate_price, getitem. by rewrite Hd.
  - intros Hp. unfold extrapolate_future_prices, getitem, setitem. simpl.
    rewrite lookup_insert_eq, lookup_insert_ne, Hp by done. done.
  - intros Hd Hp. rewrite (estimate_price_eq data [] ps d Hd Hp). done.
  - intros Hlen Hp. unfold extrapolate_future_prices, getitem, setitem. simpl.
    rewrite lookup_insert_eq, lookup_insert_ne, Hp, Hlen by done. done.
Qed.

(** *** A single observation *)

(** X11.  On a series with a single observation every estimate is that
    observation's price: at its date by interpolation, and at any other
    date because the regression on one point is the constant line. *)
Theorem estimate_on_single_observation
    (data : DataFrame Q) (d0 : date) (p0 : Q) (d : date) :
  columns data !! "Dates" = Some (Datetimes [d0]) ->
  columns data !! "Prices" = Some (Floats [p0]) ->
  exists p data', estimate_price data d = Ok (p, data') /\ (p == p0)%Q.
Proof.
  intros Hd Hp. rewrite (estimate_price_eq data [d0] [p0] d Hd Hp). cbv zeta.
  destruct (in_range [d0] d) eqn:Hin.
  - unfold in_range in Hin. simpl in Hin.
    apply andb_true_iff in Hin as [H1 H2].
    assert (d = d0) as -> by (by apply (anti_symm date_le)).
    unfold np_interp, search, binary_search_with_guess, linear_search. simpl.
    rewrite Z.ltb_irrefl. simpl.
    eexists _, _. split; [reflexivity|reflexivity].
  - unfold fit. simpl. eexists _, _. split; [reflexivity|].
    unfold decision_function, least_squares_line. cbn [coef_ intercept_ fst snd].
    generalize (inject_Z (toordinal d)) (inject_Z (toordinal d0)).
    intros x x0. unfold mean. simpl length.
    change (inject_Z (Z.of_nat 1)) with 1%Q.
    rewrite !Qsum_cons, !Qsum_nil.
    assert (((x0 - (x0 + 0) / 1) * (p0 - (p0 + 0) / 1) + 0)
            / ((x0 - (x0 + 0) / 1) * (x0 - (x0 + 0) / 1) + 0) == 0)%Q as Hcoef.
    { assert ((x0 - (x0 + 0) / 1) * (x0 - (x0 + 0) / 1) + 0 == 0)%Q as Hsxx
        by field.
      unfold Qdiv at 1. rewrite Hsxx. change (/ 0)%Q with 0%Q. ring. }
    rewrite Hcoef. field.
Qed.

Lemma estimate_on_single_observation_witness :
  exists p data',
    estimate_price (series [mkdate 2023 1 31] [10%Q]) (mkdate 2024 6 15)
      = Ok (p, data') /\ (p == 10)%Q.
Proof.
  apply (estimate_on_single_observation
           (series [mkdate 2023 1 31] [10%Q]) (mkdate 2023 1 31) 10%Q
           (mkdate 2024 6 15)).
  - reflexivity.
  - reflexivity.
Defined.

(** *** Calls one after the other *)

(** X12.  The two price functions do not disturb one another: on the
    frame an earlier call of either has left behind, each of them returns
    what it returns on the original frame. *)
Theorem price_calls_do_not_interfere {num} `{Numeric num}
    (data : DataFrame num) (d d' : date) (months months' : nat) :
  (forall p after,
     estimate_price data d = Ok (p, after) ->
     result_map fst (estimate_price after d')
       = result_map fst (estimate_price data d') /\
     result_map fst (extrapolate_future_prices after months')
       = result_map fst (extrapolate_future_prices data months')) /\
  (forall future after,
     extrapolate_future_prices data months = Ok (future, after) ->
     result_map fst (estimate_price after d')
       = result_map fst (estimate_price data d') /\
     result_map fst (extrapolate_future_prices after months')
       = result_map fst (extrapolate_future_prices data months')).
Proof.
  split.
  - intros p after (ds & _ & ->)%estimate_price_frame. split.
    + apply estimate_price_reads; unfold setitem; simpl;
        by rewrite lookup_insert_ne.
    + apply extrapolate_future_prices_reads; unfold setitem; simpl;
        [done|by rewrite lookup_insert_ne..].
  - intros future after ->%extrapolate_future_prices_frame. split.
    + apply estimate_price_reads; unfold setitem; simpl;
        by rewrite lookup_insert_ne.
    + apply extrapolate_future_prices_reads; unfold setitem; simpl;
        [done|by rewrite lookup_insert_ne..].
Qed.

(** *** Loading *)

#[local] Instance row_le_trans {num : Type} : Transitive (@row_le num).
Proof. intros r1 r2 r3. unfold row_le. apply date_le_trans. Qed.

#[local] Instance row_le_total {num : Type} : Total (@row_le num).
Proof. intros r1 r2. unfold row_le. apply date_le_total. Qed.

Lemma load_data_columns {num : Type} (rows : list (date * num)) :
  columns (load_data rows) !! "Dates"
    = Some (Datetimes ((merge_sort row_le rows).*1)) /\
  columns (load_data rows) !! "Prices"
    = Some (Floats ((merge_sort row_le rows).*2)) /\
  len (load_data rows) = length rows.
Proof.
  unfold load_data, series. cbn [columns len].
  rewrite lookup_insert_eq, lookup_insert_ne, lookup_insert_eq by done.
  split; [done|]. split; [done|].
  by rewrite length_fmap, merge_sort_Permutation.
Qed.

(** X13.  [load_data] returns the rows it was given, reordered so that
    the dates ascend: the frame has as many rows as the table, its
    (date, price) rows are a permutation of the table's, and its [Dates]
    column is sorted. *)
Theorem load_data_sorts_the_rows {num : Type} (rows : list (date * num)) :
  exists (ds : list date) (ps : list num),
    columns (load_data rows) !! "Dates" = Some (Datetimes ds) /\
    columns (load_data rows) !! "Prices" = Some (Floats ps) /\
    len (load_data rows) = length rows /\
    length ds = length rows /\ length ps = length rows /\
    zip ds ps ≡ₚ rows /\
    StronglySorted date_le ds.
Proof.
  destruct (load_data_columns rows) as (Hd & Hp & Hlen).
  eexists _, _. split; [exact Hd|]. split; [exact Hp|]. split; [done|].
  split; [by rewrite length_fmap, merge_sort_Permutation|].
  split; [by rewrite length_fmap, merge_sort_Permutation|].
  split.
  - rewrite zip_fst_snd. apply merge_sort_Permutation.
  - apply (StronglySorted_fmap fst row_le date_le); [by intros r1 r2|].
    apply StronglySorted_merge_sort; apply _.
Qed.

(** X14.  Loading and estimating round-trip: for a table of at least
    two rows with pairwise different calendar dates, in any order,
    [estimate_price] on the loaded frame returns, at the date of any row
    of the table, exactly the price of that row. *)
Theorem load_then_estimate_at_observed_date {num} `{Numeric num}
    (rows : list (date * num)) (d : date) (p : num) :
  (d, p) ∈ rows -> NoDup (rows.*1) -> Forall valid_date (rows.*1) ->
  (2 <= length rows)%nat ->
  exists data', estimate_price (load_data rows) d = Ok (p, data').
Proof.
  intros Hin Hnd Hv H2.
  destruct (load_data_columns rows) as (Hd & Hp & _).
  set (sorted := merge_sort row_le rows) in *.
  assert (sorted ≡ₚ rows) as Hperm by apply merge_sort_Permutation.
  assert (sorted.*1 ≡ₚ rows.*1) as Hperm1 by (by rewrite Hperm).
  assert (length (sorted.*1) = length (sorted.*2)) as Hlen
    by (by rewrite !length_fmap).
  assert (2 <= length (sorted.*1))%nat as H2'
    by (by rewrite length_fmap, Hperm).
  assert (Forall valid_date (sorted.*1)) as Hv' by (by rewrite Hperm1).
  assert (NoDup (sorted.*1)) as Hnd' by (by rewrite Hperm1).
  assert (StronglySorted date_lt (sorted.*1)) as Hs.
  { apply ContractFacts.StronglySorted_lt_of_le; [|done].
    apply (StronglySorted_fmap fst row_le date_le); [by intros r1 r2|].
    apply StronglySorted_merge_sort; apply _. }
  assert ((d, p) ∈ sorted) as Hin' by (by rewrite Hperm).
  apply list_elem_of_lookup in Hin' as [k Hk].
  assert (sorted.*1 !! k = Some d) as Hkd
    by (by rewrite list_lookup_fmap, Hk).
  assert (sorted.*2 !! k = Some p) as Hkp
    by (by rewrite list_lookup_fmap, Hk).
  assert (d ∈ sorted.*1) as Hdin by (by eapply list_elem_of_lookup_2).
  assert (valid_date d) as Hvd.
  { rewrite Forall_forall in Hv'. by apply Hv'. }
  destruct (dates_min_is_Some (sorted.*1)) as [lo Hlo].
  { intros Hnil. rewrite Hnil in H2'. simpl in H2'. lia. }
  destruct (dates_max_is_Some (sorted.*1)) as [hi Hhi].
  { intros Hnil. rewrite Hnil in H2'. simpl in H2'. lia. }
  destruct (dates_min_spec _ _ Hlo) as [_ Hlo_le].
  destruct (dates_max_spec _ _ Hhi) as [_ Hhi_le].
  destruct (interp_on_series (sorted.*1) (sorted.*2) d lo hi)
    as (q & Hq & _ & Hexact); [done..|by apply Hlo_le|by apply Hhi_le|].
  rewrite (Hexact k p Hkd Hkp) in Hq.
  eexists. eapply estimate_in_range; [done..|by apply Hlo_le|by apply Hhi_le|done].
Qed.

Lemma load_then_estimate_at_observed_date_witness :
  exists data',
    estimate_price
      (load_data [(mkdate 2023 3 31, 13%Q); (mkdate 2023 1 31, 10%Q);
                  (mkdate 2023 2 28, 11%Q)])
      (mkdate 2023 2 28) = Ok (11%Q, data').
Proof.
  apply (load_then_estimate_at_observed_date
           [(mkdate 2023 3 31, 13%Q); (mkdate 2023 1 31, 10%Q);
            (mkdate 2023 2 28, 11%Q)]
           (mkdate 2023 2 28) 11%Q).
  - do 2 apply list_elem_of_further. apply list_elem_of_here.
  - apply (bool_decide_unpack _). vm_compute. exact I.
  - repeat (constructor; [repeat split; vm_compute; discriminate|]).
    constructor.
  - simpl. lia.
Defined.

(** *** Ordinal dates *)

Lemma days_before_next_month y m :
  1 <= m < 12 ->
  days_before_month y (m + 1) = days_before_month y m + days_in_month y m.
Proof.
  intros Hm. unfold days_before_month, days_in_month.
  destruct (month_cases m ltac:(lia))
    as [->|[->|[->|[->|[->|[->|[->|[->|[->|[->|[->| ->]]]]]]]]]]];
    try lia; destruct (is_leap y); reflexivity.
Qed.

(** X16.  The ordinal of a date, on which interpolation and regression
    work, counts calendar days: 0001-01-01 is day 1, and the day after
    a date has the next ordinal, be it the next day of the same month,
    the first day of the next month after the last day of a month, or
    1 January after 31 December.  So on valid dates an earlier date has
    a smaller ordinal, and equal ordinals mean equal dates. *)
Theorem ordinals_count_days :
  toordinal (mkdate 1 1 1) = 1 /\
  (forall y m d,
     toordinal (mkdate y m (d + 1)) = toordinal (mkdate y m d) + 1) /\
  (forall y m, 1 <= m < 12 ->
     toordinal (mkdate y (m + 1) 1)
     = toordinal (mkdate y m (days_in_month y m)) + 1) /\
  (forall y,
     toordinal (mkdate (y + 1) 1 1) = toordinal (mkdate y 12 31) + 1) /\
  (forall a b, valid_date a -> valid_date b ->
     (date_lt a b <-> toordinal a < toordinal b) /\
     (a = b <-> toordinal a = toordinal b)).
Proof.
  split; [reflexivity|]. split; [|split; [|split]].
  - intros y m d. unfold toordinal. cbn [year month day]. lia.
  - intros y m Hm. unfold toordinal. cbn [year month day].
    rewrite (days_before_next_month y m Hm). lia.
  - intros y. unfold toordinal. cbn [year month day].
    rewrite days_before_year_succ. unfold days_before_month.
    destruct (is_leap y), (is_leap (y + 1)); simpl; lia.
  - intros a b Ha Hb. split; split.
    + by apply toordinal_lt.
    + by apply date_lt_of_toordinal.
    + by intros ->.
    + by apply toordinal_inj.
Qed.

(** *** When an estimate is returned *)




(** *** The sample series in binary64 *)

#[local] Set Warnings "-inexact-float".

(** X18.  [estimate_price] evaluated in binary64 on the series
    (2023-01-31, 10), (2023-02-28, 11), (2023-03-31, 13), whatever the
    least-squares solver: the observed prices at the three observed
    dates; 10.5 half-way between the first two; and one day after the
    second, where the interpolant is 343/31, the float
    11.064516129032258. *)
Theorem estimate_on_sample_in_binary64 solver :
  let estimate d :=
    result_map fst
      (@estimate_price float _ (binary64 solver) Sample.float_data d) in
  estimate (mkdate 2023 1 31) = Ok 10%float /\
  estimate (mkdate 2023 2 28) = Ok 11%float /\
  estimate (mkdate 2023 3 31) = Ok 13%float /\
  estimate (mkdate 2023 2 14) = Ok 10.5%float /\
  estimate (mkdate 2023 3 1) = Ok 11.064516129032258%float.
Proof.
  intros estimate. unfold estimate.
  repeat split; vm_compute; reflexivity.
Qed.

End PriceExtras.
